(** * akira_kvn: the key-issuing bot of [bot.py]

    A shallow embedding of the store, the entitlement calculator, the key
    issuer, the admin override and the payment ledger of [bot.py], followed
    by the properties of the specification that concern them.

    Conventions of the embedding.
    - Telegram user ids are integers.  The program keeps them in its
      dictionaries as [str(id)] and reads them back with [int(...)]; the
      map of users is keyed by the number itself.
    - Time stamps are integers (microseconds since the epoch, the
      resolution of [datetime]); the program holds them as floats.
    - Every reading of the outside world (membership answers of the
      Telegram API, random bytes of [secrets], the clock, the content of
      [data.json]) is an explicit input.
    - What a handler sends back is its result.  Handlers send after they
      have saved; that the sending itself can fail is modelled where a
      payment is reconciled, and writing the file is taken to succeed. *)

From Stdlib Require Import ZArith List String Ascii Strings.Byte Lia.
From stdpp Require Import base option list gmap strings pretty.

Local Open Scope Z_scope.

(** ** Exceptions and results *)

(** The Python exceptions that the modelled code can meet; all of them are
    subclasses of [Exception]. *)
Inductive exn : Type :=
| ValueError
| KeyError
| JSONDecodeError
| FileNotFoundError
| UnicodeDecodeError
| RecursionError
| TelegramAPIError
| TimeoutError.

(** A computation either returns or raises. *)
Inductive outcome (A : Type) : Type :=
| Done (a : A)
| Raised (e : exn).
Arguments Done {A} a.
Arguments Raised {A} e.

(** ** Data model (the JSON layout of [data.json]) *)

(** [key_obj] of [get_key_handler]. *)
Record Key : Type := mkKey {
  key_id : string;        (* "id" *)
  key : string;           (* "key": the credential *)
  valid_until : Z;
  created_at : Z
}.

(** A value of [data["users"]]. *)
Record UserRecord : Type := mkUser {
  username : option string;      (* [None] when the account has no username *)
  manual_limit : option Z;       (* [None]: computed automatically *)
  keys_used : Z;
  keys : list Key
}.

(** A value of [data["pending"]]. *)
Record PendingPayment : Type := mkPending {
  user_id : Z;                   (* stored as [str(message.from_user.id)] *)
  amount : Z;                    (* nanotons; the source stores 0.5 (TON) *)
  pending_created_at : Z;
  status : string
}.

(** The whole store: [{"users": {...}, "pending": {...}}]. *)
Record Snapshot : Type := mkData {
  users : gmap Z UserRecord;
  pending : gmap string PendingPayment
}.

(** [{"users": {}, "pending": {}}] *)
Definition empty_snapshot : Snapshot := mkData ∅ ∅.

(** ** The backing file *)

(** What [data.json] can hold.  [Stored d] is the text that [save_data d]
    wrote: [json.load] reads it back as [d].  [Garbled content raised] is
    content that is not a JSON document: [content] are its bytes, and
    [raised] is the exception that [json.load] raises on its text when the
    bytes are UTF-8 ([JSONDecodeError] on text that is not JSON;
    [RecursionError] or [ValueError] on text nested too deeply or holding
    too long a number).  A JSON document of another shape than a snapshot
    is outside this model. *)
Inductive file_state : Type :=
| Missing
| Stored (d : Snapshot)
| Garbled (content : list byte) (raised : exn).

(** *** Strict UTF-8 decoding, as [open(..., encoding="utf-8")] performs it

    [utf8_valid] accepts exactly the well-formed UTF-8 byte sequences
    (Unicode, table 3-7). *)
Definition in_range (lo hi : N) (b : byte) : bool :=
  (lo <=? Byte.to_N b)%N && (Byte.to_N b <=? hi)%N.

Definition is_cont : byte -> bool := in_range 128 191.

Fixpoint utf8_valid (bs : list byte) : bool :=
  match bs with
  | [] => true
  | b0 :: r0 =>
    if in_range 0 127 b0 then utf8_valid r0
    else match r0 with
    | [] => false
    | b1 :: r1 =>
      if in_range 194 223 b0 then is_cont b1 && utf8_valid r1
      else match r1 with
      | [] => false
      | b2 :: r2 =>
        if in_range 224 239 b0 then
          (if in_range 224 224 b0 then in_range 160 191 b1
           else if in_range 237 237 b0 then in_range 128 159 b1
           else is_cont b1)
          && is_cont b2 && utf8_valid r2
        else match r2 with
        | [] => false
        | b3 :: r3 =>
          in_range 240 244 b0
          && (if in_range 240 240 b0 then in_range 144 191 b1
              else if in_range 244 244 b0 then in_range 128 143 b1
              else is_cont b1)
          && is_cont b2 && is_cont b3 && utf8_valid r3
        end
      end
    end
  end.

(** [os.path.exists(DATA_FILE)] *)
Definition file_exists (f : file_state) : bool :=
  match f with
  | Missing => false
  | _ => true
  end.

(** [with open(DATA_FILE, "r", encoding="utf-8") as f: json.load(f)].
    Bytes that are not UTF-8 make the read inside [json.load] raise
    [UnicodeDecodeError]; on text that is no JSON document the parser
    raises its own exception. *)
Definition json_load (f : file_state) : outcome Snapshot :=
  match f with
  | Missing => Raised FileNotFoundError
  | Stored d => Done d
  | Garbled content raised =>
    if utf8_valid content then Raised raised
    else Raised UnicodeDecodeError
  end.

(** [load_data]: the empty snapshot when the file does not exist; else the
    file is read, and the [except] clause turns [JSONDecodeError] and
    [FileNotFoundError], and only these, into the empty snapshot. *)
Definition load_data (f : file_state) : outcome Snapshot :=
  if negb (file_exists f) then Done empty_snapshot
  else
    match json_load f with
    | Done d => Done d
    | Raised JSONDecodeError | Raised FileNotFoundError => Done empty_snapshot
    | Raised e => Raised e
    end.

(** [save_data]: the file is rewritten in full. *)
Definition save_data (data : Snapshot) : file_state := Stored data.

(** [ensure_user]: a default record when the id is new, else only the
    username is refreshed. *)
Definition ensure_user (uid : Z) (uname : option string) (data : Snapshot)
  : Snapshot :=
  match users data !! uid with
  | None =>
    mkData (<[uid := mkUser uname None 0 []]> (users data)) (pending data)
  | Some u =>
    mkData (<[uid := mkUser uname (manual_limit u) (keys_used u) (keys u)]>
              (users data))
           (pending data)
  end.

(** ** Configuration (the environment variables read at start-up) *)

Record Config : Type := mkConfig {
  CHAT_ID_1 : Z;                 (* 0 when unset *)
  CHAT_ID_2 : Z;
  ADMINS : list Z;
  WALLET_ADDRESS : string
}.

Definition KEYS_PER_CHAT : Z := 3.

(** ** Calls to the Telegram API

    A computation that may call [bot.get_chat_member] and the logger.  The
    continuation of [GetChatMember] receives the [status] of the member
    returned, or the exception raised by the call. *)
Inductive tg (A : Type) : Type :=
| Ret (a : A)
| GetChatMember (chat_id uid : Z) (k : outcome string -> tg A)
| LogWarning (chat : nat) (uid : Z) (e : exn) (k : tg A).
Arguments Ret {A} a.
Arguments GetChatMember {A} chat_id uid k.
Arguments LogWarning {A} chat uid e k.

(** Sequencing of such computations. *)
Fixpoint tg_bind {A B : Type} (f : A -> tg B) (p : tg A) : tg B :=
  match p with
  | Ret a => f a
  | GetChatMember c u k => GetChatMember c u (fun r => tg_bind f (k r))
  | LogWarning n u e k => LogWarning n u e (tg_bind f k)
  end.

#[global] Instance tg_mret : MRet tg := @Ret.
#[global] Instance tg_mbind : MBind tg := @tg_bind.

(** The answers of the Telegram API, by chat id and user id. *)
Definition oracle : Type := Z -> Z -> outcome string.

(** Running a computation against the answers [o]. *)
Fixpoint run {A : Type} (o : oracle) (p : tg A) : A :=
  match p with
  | Ret a => a
  | GetChatMember c u k => run o (k (o c u))
  | LogWarning _ _ _ k => run o k
  end.

(** The membership checks made, in order, as (chat id, user id). *)
Fixpoint asked {A : Type} (o : oracle) (p : tg A) : list (Z * Z) :=
  match p with
  | Ret _ => []
  | GetChatMember c u k => (c, u) :: asked o (k (o c u))
  | LogWarning _ _ _ k => asked o k
  end.

(** The warnings logged, in order, as (number of the chat, exception). *)
Fixpoint warned {A : Type} (o : oracle) (p : tg A) : list (nat * exn) :=
  match p with
  | Ret _ => []
  | GetChatMember c u k => warned o (k (o c u))
  | LogWarning n _ e k => (n, e) :: warned o k
  end.

(** [member.status in ['member', 'administrator', 'creator']] *)
Definition belongs (st : string) : bool :=
  bool_decide (st ∈ ["member"; "administrator"; "creator"]).

(** [calculate_limit]: the manual limit when one is set; else
    [KEYS_PER_CHAT] for each configured chat the user belongs to, a failed
    check being logged and adding nothing; 1 when the sum is 0. *)
Definition calculate_limit (cfg : Config) (uid : Z) (user_data : UserRecord)
  : tg Z :=
  match manual_limit user_data with
  | Some m => Ret m
  | None =>
    let limit := 0 in
    (* chat 1 *)
    limit ←
      (if bool_decide (CHAT_ID_1 cfg ≠ 0) then
         GetChatMember (CHAT_ID_1 cfg) uid (fun r =>
           match r with
           | Done st =>
             Ret (if belongs st then limit + KEYS_PER_CHAT else limit)
           | Raised e => LogWarning 1 uid e (Ret limit)
           end)
       else Ret limit);
    (* chat 2 *)
    limit ←
      (if bool_decide (CHAT_ID_2 cfg ≠ 0) then
         GetChatMember (CHAT_ID_2 cfg) uid (fun r =>
           match r with
           | Done st =>
             Ret (if belongs st then limit + KEYS_PER_CHAT else limit)
           | Raised e => LogWarning 2 uid e (Ret limit)
           end)
       else Ret limit);
    (* base limit *)
    Ret (if bool_decide (limit = 0) then 1 else limit)
  end.

(** ** Strings *)

(** [str(n)] for an integer: its decimal rendering. *)
Definition str (n : Z) : string := pretty n.

(** One lower-case hexadecimal digit: the character at index [n] of the
    alphabet of [binascii.hexlify]. *)
Definition hex_digit (n : N) : ascii :=
  match String.get (N.to_nat n) "0123456789abcdef" with
  | Some c => c
  | None => "f"%char
  end.

(** [secrets.token_hex] on the bytes that the system source returned: two
    lower-case hexadecimal digits per byte. *)
Fixpoint token_hex (random : list byte) : string :=
  match random with
  | [] => ""
  | b :: r =>
    String (hex_digit (Byte.to_N b / 16))
      (String (hex_digit (Byte.to_N b mod 16)) (token_hex r))
  end.

Definition upper_ascii (c : ascii) : ascii :=
  let n := N_of_ascii c in
  if (97 <=? n)%N && (n <=? 122)%N then ascii_of_N (n - 32) else c.

(** [s.upper()] on ASCII text. *)
Fixpoint upper (s : string) : string :=
  match s with
  | EmptyString => EmptyString
  | String c r => String (upper_ascii c) (upper r)
  end.

(** [generate_key_string]: ["KVN-"] and the upper-case hexadecimal
    rendering of the 4 bytes drawn by [secrets.token_hex(4)]. *)
Definition generate_key_string (random : list byte) : string :=
  "KVN-" +:+ upper (token_hex random).

(** [s.split(sep)] for a separator of one character. *)
Fixpoint split (sep : ascii) (s : string) : list string :=
  match s with
  | EmptyString => [EmptyString]
  | String c r =>
    if Ascii.eqb c sep then EmptyString :: split sep r
    else
      match split sep r with
      | [] => [String c EmptyString]
      | h :: t => String c h :: t
      end
  end.

Definition digit_of (c : ascii) : option Z :=
  let n := N_of_ascii c in
  if (48 <=? n)%N && (n <=? 57)%N then Some (Z.of_N (n - 48)) else None.

Fixpoint digits_value (acc : Z) (s : string) : option Z :=
  match s with
  | EmptyString => Some acc
  | String c r =>
    match digit_of c with
    | Some d => digits_value (10 * acc + d) r
    | None => None
    end
  end.

(** The blanks that [int] skips around a number in ASCII text: tab, line
    feed, vertical tab, form feed, carriage return and the space. *)
Definition is_blank (c : ascii) : bool :=
  let n := N_of_ascii c in
  ((9 <=? n)%N && (n <=? 13)%N) || (n =? 32)%N.

Fixpoint lstrip (s : string) : string :=
  match s with
  | EmptyString => EmptyString
  | String c r => if is_blank c then lstrip r else s
  end.

Fixpoint rstrip (s : string) : string :=
  match s with
  | EmptyString => EmptyString
  | String c r =>
    match rstrip r with
    | EmptyString => if is_blank c then EmptyString else String c EmptyString
    | r' => String c r'
    end
  end.

(** The text without the blanks around it. *)
Definition strip (s : string) : string := rstrip (lstrip s).

(** The value of decimal digits that single underscores may separate;
    [after_digit] tells that the character before was a digit. *)
Fixpoint number_value (acc : Z) (after_digit : bool) (s : string)
  : option Z :=
  match s with
  | EmptyString => if after_digit then Some acc else None
  | String c r =>
    if Ascii.eqb c "_" then
      if after_digit then number_value acc false r else None
    else
      match digit_of c with
      | Some d => number_value (10 * acc + d) true r
      | None => None
      end
  end.

(** [int(s)] on ASCII text: blanks around, an optional sign, and decimal
    digits with single underscores between them; [None] stands for
    [ValueError].  (In text that holds characters outside ASCII, Python
    also takes the blanks and the decimal digits of Unicode; these are
    not modelled, and such text reads as no number here.) *)
Definition int (s : string) : option Z :=
  match strip s with
  | String "-" r => Z.opp <$> number_value 0 false r
  | String "+" r => number_value 0 false r
  | t => number_value 0 false t
  end.

(** The user id that a dictionary key [s] of [data["users"]] stands for:
    [s] is a key only as the rendering [str(uid)] of an id. *)
Definition uid_of_key (s : string) : option Z :=
  match int s with
  | Some n => if String.eqb (str n) s then Some n else None
  | None => None
  end.

(** ** Handlers

    A handler receives the content of [data.json] and returns what it
    answers together with the content it leaves. *)

(** What a handler reads of [message.from_user] (or [callback.from_user]). *)
Record Sender : Type := mkSender {
  from_id : Z;
  from_username : option string
}.

(** What one issuance reads of the outside world: the bytes drawn by
    [secrets.token_hex(4)] and [secrets.token_hex(3)], the two readings of
    [datetime.now()], and the local time zone.  [datetime.now()] is a
    local time without a zone; [timedelta(days=30)] is added to it on the
    wall clock, and [timestamp()] turns the sum back with the UTC offset
    in force then: [zone_shift] is the UTC offset at the reading of the
    clock minus the UTC offset at the expiry, 0 unless a daylight-saving
    change falls between the two. *)
Record Draw : Type := mkDraw {
  key_random : list byte;
  id_random : list byte;
  now_expiry : Z;
  now_created : Z;
  zone_shift : Z
}.

(** [timedelta(days=30)], in microseconds. *)
Definition thirty_days : Z := 30 * 86400 * 1000000.

(** [start_cmd]: registers the sender; answers the menu, with the admin
    button for an admin. *)
Definition start_cmd (cfg : Config) (m : Sender) (f : file_state)
  : outcome bool * file_state :=
  match load_data f with
  | Raised e => (Raised e, f)
  | Done data =>
    let data := ensure_user (from_id m) (from_username m) data in
    let is_admin := bool_decide (from_id m ∈ ADMINS cfg) in
    (Done is_admin, save_data data)
  end.

(** The two answers of [get_key_handler]. *)
Inductive key_reply : Type :=
| LimitExceeded (limit used : Z)
| Issued (new_key_value : string) (expiration_date : Z) (progress limit : Z).

(** [get_key_handler] *)
Definition get_key_handler (cfg : Config) (o : oracle) (m : Sender) (w : Draw)
    (f : file_state) : outcome key_reply * file_state :=
  match load_data f with
  | Raised e => (Raised e, f)
  | Done data =>
    let data := ensure_user (from_id m) (from_username m) data in
    match users data !! from_id m with
    | None => (Raised KeyError, f)
    | Some user_record =>
      (* 1. the current limit *)
      let limit := run o (calculate_limit cfg (from_id m) user_record) in
      let used := Z.of_nat (length (keys user_record)) in
      (* 2. the check: used >= limit *)
      if bool_decide (limit ≤ used) then
        (Done (LimitExceeded limit used), f)
      else
        (* 3. the new key *)
        let new_key_value := generate_key_string (key_random w) in
        let expiration_date := now_expiry w + thirty_days + zone_shift w in
        let key_obj :=
          mkKey (upper (token_hex (id_random w))) new_key_value
                expiration_date (now_created w) in
        (* 4. append, refresh the counter, save *)
        let keys' := keys user_record ++ [key_obj] in
        let user_record' :=
          mkUser (username user_record) (manual_limit user_record)
                 (Z.of_nat (length keys')) keys' in
        let data' :=
          mkData (<[from_id m := user_record']> (users data)) (pending data) in
        (Done (Issued new_key_value expiration_date
                      (Z.of_nat (length keys')) limit),
         save_data data')
    end
  end.

(** [my_keys_handler]: every key of the sender with whether it is still
    valid ([valid_until > now]); the empty list stands for the answer that
    there are no keys.  Nothing is saved. *)
Definition my_keys_handler (m : Sender) (current_time : Z) (f : file_state)
  : outcome (list (Key * bool)) * file_state :=
  match load_data f with
  | Raised e => (Raised e, f)
  | Done data =>
    let data := ensure_user (from_id m) (from_username m) data in
    match users data !! from_id m with
    | None => (Raised KeyError, f)
    | Some u =>
      (Done (map (fun k => (k, bool_decide (current_time < valid_until k)))
                 (keys u)),
       f)
    end
  end.

(** [get_admin_limits_keyboard]: one button per quick limit, as
    (text, callback data). *)
Definition get_admin_limits_keyboard (target_user_id : string)
  : list (string * string) :=
  let limits := [1; 8; 16; 100] in
  map (fun lim => (str lim, "set_lim_" +:+ target_user_id +:+ "_" +:+ str lim))
      limits.

(** The answers of [set_limit_callback]. *)
Inductive limit_reply : Type :=
| NoRights
| LimitSet (target_id : Z) (new_limit : Z)
| UserNotFound.

(** [set_limit_callback], on the sender and the data of the callback:
<<
    _, target_id, limit_val = callback.data.split("_")
    new_limit = int(limit_val)
>>
    The unpacking raises [ValueError] unless the split yields exactly three
    fields.  The notification sent afterwards is best effort and has no
    part in the result. *)
Definition set_limit_callback (cfg : Config) (from : Z) (callback_data : string)
    (f : file_state) : outcome limit_reply * file_state :=
  if negb (bool_decide (from ∈ ADMINS cfg)) then (Done NoRights, f)
  else
    match split "_" callback_data with
    | [_; target_id; limit_val] =>
      match int limit_val with
      | None => (Raised ValueError, f)
      | Some new_limit =>
        match load_data f with
        | Raised e => (Raised e, f)
        | Done data =>
          match uid_of_key target_id with
          | Some uid =>
            match users data !! uid with
            | Some u =>
              let u' :=
                mkUser (username u) (Some new_limit) (keys_used u) (keys u) in
              let data' :=
                mkData (<[uid := u']> (users data)) (pending data) in
              (Done (LimitSet uid new_limit), save_data data')
            | None => (Done UserNotFound, f)
            end
          | None => (Done UserNotFound, f)
          end
        end
      end
    | _ => (Raised ValueError, f)
    end.

(** The handler is registered for the callbacks whose data starts with
    ["set_lim_"]: [@dp.callback_query(F.data.startswith("set_lim_"))]. *)
Definition routed_to_set_limit (callback_data : string) : bool :=
  String.prefix "set_lim_" callback_data.

(** [comment] of [buy_key_handler]: [f"pay_{id}_{int(time.time())}"], the
    clock being read in microseconds ([int] truncates). *)
Definition payment_comment (uid : Z) (now : Z) : string :=
  "pay_" +:+ str uid +:+ "_" +:+ str (now `quot` 1000000).

(** [buy_key_handler]: answers the payment link and the reference, and
    records the pending payment under the reference. *)
Definition buy_key_handler (cfg : Config) (m : Sender) (now now' : Z)
    (f : file_state) : outcome (string * string) * file_state :=
  let amount_nano := 500000000 in
  let comment := payment_comment (from_id m) now in
  let link :=
    "ton://transfer/" +:+ WALLET_ADDRESS cfg +:+ "?amount="
      +:+ str amount_nano +:+ "&text=" +:+ comment in
  match load_data f with
  | Raised e => (Raised e, f)
  | Done data =>
    let data' :=
      mkData (users data)
             (<[comment := mkPending (from_id m) amount_nano now' "waiting"]>
                (pending data)) in
    (Done (link, comment), save_data data')
  end.

(** [finalize_payment]: answers the user credited and the new limit, or
    nothing ([None]) when the reference is not pending or the payer has no
    record.  The answer is sent, with [message.edit_text] or
    [bot.send_message], after the snapshot is saved, and outside any
    [try]: [sent] is the outcome of the sending. *)
Definition finalize_payment (cfg : Config) (o : oracle) (sent : outcome unit)
    (comment_id : string) (f : file_state)
  : outcome (option (Z * Z)) * file_state :=
  match load_data f with
  | Raised e => (Raised e, f)
  | Done data =>
    match pending data !! comment_id with
    | Some info =>
      let uid := user_id info in
      match users data !! uid with
      | Some u =>
        let current_manual :=
          match manual_limit u with
          | Some m => m
          | None => run o (calculate_limit cfg uid u)
          end in
        let u' :=
          mkUser (username u) (Some (current_manual + 1)) (keys_used u)
                 (keys u) in
        let data' :=
          mkData (<[uid := u']> (users data))
                 (delete comment_id (pending data)) in
        (match sent with
         | Done _ => Done (Some (uid, current_manual + 1))
         | Raised e => Raised e
         end,
         save_data data')
      | None => (Done None, f)
      end
    | None => (Done None, f)
    end
  end.

(** ** Sequences of requests *)

Inductive request : Type :=
| Start (m : Sender)
| GetKey (o : oracle) (m : Sender) (w : Draw)
| MyKeys (m : Sender) (now : Z)
| SetLimit (from : Z) (callback_data : string)
| BuyKey (m : Sender) (now now' : Z)
| FinalizePayment (o : oracle) (sent : outcome unit) (comment_id : string).

(** The content of the file after one request. *)
Definition handle (cfg : Config) (r : request) (f : file_state) : file_state :=
  match r with
  | Start m => (start_cmd cfg m f).2
  | GetKey o m w => (get_key_handler cfg o m w f).2
  | MyKeys m now => (my_keys_handler m now f).2
  | SetLimit from d => (set_limit_callback cfg from d f).2
  | BuyKey m now now' => (buy_key_handler cfg m now now' f).2
  | FinalizePayment o sent c => (finalize_payment cfg o sent c f).2
  end.

(** The content of the file after a sequence of requests, oldest first,
    each handled to its end before the next one starts. *)
Definition handle_all (cfg : Config) (rs : list request) (f : file_state)
  : file_state :=
  foldl (fun f r => handle cfg r f) f rs.

(** ** Notions used in the statements *)

(** One membership check of [calculate_limit], for the chat numbered [n]. *)
Definition chat_check (n : nat) (chat uid limit : Z) : tg Z :=
  if bool_decide (chat ≠ 0) then
    GetChatMember chat uid (fun r =>
      match r with
      | Done st => Ret (if belongs st then limit + KEYS_PER_CHAT else limit)
      | Raised e => LogWarning n uid e (Ret limit)
      end)
  else Ret limit.

(** What one check adds: [KEYS_PER_CHAT] for a member of a configured
    chat, nothing otherwise. *)
Definition bonus (o : oracle) (chat uid : Z) : Z :=
  if bool_decide (chat ≠ 0) then
    match o chat uid with
    | Done st => if belongs st then KEYS_PER_CHAT else 0
    | Raised _ => 0
    end
  else 0.

(** A property of the snapshot that the file holds, as [load_data] reads
    it; a file that cannot be read holds none. *)
Definition on_store (P : Snapshot -> Prop) (f : file_state) : Prop :=
  match load_data f with
  | Done d => P d
  | Raised _ => True
  end.

(** Every user has at most as many keys as the limit that the answers [o]
    give them. *)
Definition within_limit (cfg : Config) (o : oracle) (d : Snapshot) : Prop :=
  map_Forall (fun uid u =>
    Z.of_nat (length (keys u)) <= run o (calculate_limit cfg uid u)) (users d).

(** Every counter [keys_used] is the length of its list of keys. *)
Definition counters_exact (d : Snapshot) : Prop :=
  map_Forall (fun (_ : Z) u => keys_used u = Z.of_nat (length (keys u)))
             (users d).

(** The answers [o'] give no user a lower limit than the answers [o]. *)
Definition no_lower (cfg : Config) (o o' : oracle) : Prop :=
  forall uid u,
    run o (calculate_limit cfg uid u) <= run o' (calculate_limit cfg uid u).

(** From the answers [o] on, through the answers [os] in turn, no limit
    ever decreases. *)
Fixpoint limits_never_drop (cfg : Config) (o : oracle) (os : list oracle)
  : Prop :=
  match os with
  | [] => True
  | o' :: rest => no_lower cfg o o' /\ limits_never_drop cfg o' rest
  end.

(** The last of the answers [os], or [o] when there are none. *)
Fixpoint final_answers (o : oracle) (os : list oracle) : oracle :=
  match os with
  | [] => o
  | o' :: rest => final_answers o' rest
  end.

(** A sequence of issuance attempts, each under its own answers. *)
Definition attempts (oms : list (oracle * (Sender * Draw))) : list request :=
  map (fun a => GetKey a.1 a.2.1 a.2.2) oms.

(** Whether the character [c] occurs in [s], and how often. *)
Fixpoint has_char (c : ascii) (s : string) : bool :=
  match s with
  | EmptyString => false
  | String c' r => Ascii.eqb c' c || has_char c r
  end.

Fixpoint count_char (c : ascii) (s : string) : nat :=
  match s with
  | EmptyString => 0
  | String c' r => (if Ascii.eqb c' c then 1 else 0) + count_char c r
  end.

(** The value of a hexadecimal digit, of either case. *)
Definition hex_value (c : ascii) : N :=
  let n := N_of_ascii c in
  if (48 <=? n)%N && (n <=? 57)%N then n - 48
  else if (65 <=? n)%N && (n <=? 70)%N then n - 55
  else if (97 <=? n)%N && (n <=? 102)%N then n - 87
  else 16.

(** The reference chats that are configured. *)
Definition configured (cfg : Config) : list Z :=
  filter (fun c => c ≠ 0) [CHAT_ID_1 cfg; CHAT_ID_2 cfg].

(** An answer that does not count as belonging: a status outside the three
    that count, or a failed call. *)
Definition not_a_member (r : outcome string) : Prop :=
  match r with
  | Done st => belongs st = false
  | Raised _ => True
  end.

(** The answers [o] with every failed call replaced by the answer that the
    user has left the chat. *)
Definition failures_as_left (o : oracle) : oracle :=
  fun chat uid =>
    match o chat uid with
    | Done st => Done st
    | Raised _ => Done "left"
    end.

(** ** Concrete inputs used by the examples below *)

(** One reference chat is configured; user 1 is the admin. *)
Definition cfg1 : Config := mkConfig (-1001) 0 [1] "EQtest".
(** Two reference chats are configured. *)
Definition cfg2 : Config := mkConfig (-1001) (-1002) [1] "EQtest".

(** The user belongs to the chat that is asked about. *)
Definition o_member : oracle := fun _ _ => Done "member".
(** The user has left it. *)
Definition o_left : oracle := fun _ _ => Done "left".
(** Every check fails. *)
Definition o_down : oracle := fun _ _ => Raised TimeoutError.
(** The check of the first chat fails; the user was removed from the others. *)
Definition o_mixed : oracle :=
  fun chat _ => if bool_decide (chat = -1001) then Raised TimeoutError
                else Done "kicked".

(** A record as [ensure_user] creates it. *)
Definition fresh_user : UserRecord := mkUser (Some "seven") None 0 [].

(** A store in which user 7 is registered and has started a purchase. *)
Definition store_7_buying : Snapshot :=
  mkData {[ 7 := fresh_user ]}
         {[ "pay_7_1700000000" := mkPending 7 500000000 1700000000000005 "waiting" ]}.

(** A store in which user 9 has started a purchase without being
    registered. *)
Definition store_9_unknown : Snapshot :=
  mkData {[ 7 := fresh_user ]}
         {[ "pay_9_1700000000" := mkPending 9 500000000 1700000000000005 "waiting" ]}.

Definition user7 : Sender := mkSender 7 (Some "seven").
Definition user8 : Sender := mkSender 8 None.

Definition draw_a : Draw :=
  mkDraw [x00; x11; x22; x33]%byte [xaa; xbb; xcc]%byte
         1700000000000000 1700000000000010 0.
Definition draw_b : Draw :=
  mkDraw [x44; x55; x66; x77]%byte [xdd; xee; xff]%byte
         1700000100000000 1700000100000010 0.
Definition draw_c : Draw :=
  mkDraw [x88; x99; xaa; xbb]%byte [x01; x02; x03]%byte
         1700000200000000 1700000200000010 0.
Definition draw_d : Draw :=
  mkDraw [xcc; xdd; xee; xff]%byte [x04; x05; x06]%byte
         1700000300000000 1700000300000010 0.

(** The store after one issuance to user 7 under the baseline limit. *)
Definition store_7_one_key : Snapshot :=
  mkData {[ 7 := mkUser (Some "seven") None 1
                   [mkKey "AABBCC" "KVN-00112233"
                          1702592000000000 1700000000000010] ]} ∅.

(** ** The payment check *)

(** [s.replace(old, "")]: every occurrence of [old], found from left to
    right without overlap, is removed.  [skip] counts the characters of
    the occurrence being removed that are still to pass. *)
Fixpoint remove_all_from (skip : nat) (old s : string) : string :=
  match s with
  | EmptyString => EmptyString
  | String c r =>
    match skip with
    | S k => remove_all_from k old r
    | O =>
      if String.prefix old s && negb (String.eqb old "")
      then remove_all_from (String.length old - 1) old r
      else String c (remove_all_from 0 old r)
    end
  end.

Definition remove_all (old s : string) : string := remove_all_from 0 old s.

(** [is_paid = False]: the check of the payment is a stub in the source. *)
Definition is_paid : bool := false.

(** The answers of [check_payment_manual]. *)
Inductive check_reply : Type :=
| NotPaidYet
| Finalized (credited : option (Z * Z)).

(** [check_payment_manual]: reconciles the reference named by the data of
    the callback when the payment is found paid. *)
Definition check_payment_manual (cfg : Config) (o : oracle)
    (sent : outcome unit) (callback_data : string) (f : file_state)
  : outcome check_reply * file_state :=
  let comment := remove_all "check_pay_" callback_data in
  if is_paid then
    match finalize_payment cfg o sent comment f with
    | (Done r, f') => (Done (Finalized r), f')
    | (Raised e, f') => (Raised e, f')
    end
  else (Done NotPaidYet, f).

(** The data of the button that [buy_key_handler] puts under its answer
    to have the payment checked: [f"check_pay_{comment}"]. *)
Definition check_button_data (comment : string) : string :=
  "check_pay_" +:+ comment.

(** ** What the dispatcher delivers

    A message that one of the text filters has matched, or a callback
    query, which goes to the first handler whose prefix its data starts
    with, in the order of registration: [help_], [set_lim_], [check_pay_].
    The help handler, like the admin panel and the admin search, does not
    touch the file. *)
Inductive update : Type :=
| OnStart (m : Sender)
| OnGetKey (o : oracle) (m : Sender) (w : Draw)
| OnMyKeys (m : Sender) (now : Z)
| OnBuyKey (m : Sender) (now now' : Z)
| OnCallback (o : oracle) (sent : outcome unit) (from : Z)
             (callback_data : string).

Definition dispatch (cfg : Config) (upd : update) (f : file_state)
  : file_state :=
  match upd with
  | OnStart m => (start_cmd cfg m f).2
  | OnGetKey o m w => (get_key_handler cfg o m w f).2
  | OnMyKeys m now => (my_keys_handler m now f).2
  | OnBuyKey m now now' => (buy_key_handler cfg m now now' f).2
  | OnCallback o sent from d =>
    if String.prefix "help_" d then f
    else if routed_to_set_limit d then (set_limit_callback cfg from d f).2
    else if String.prefix "check_pay_" d
         then (check_payment_manual cfg o sent d f).2
    else f
  end.

Definition dispatch_all (cfg : Config) (upds : list update) (f : file_state)
  : file_state :=
  foldl (fun f upd => dispatch cfg upd f) f upds.

(** ** Handlers that overlap

    The dispatcher runs the handlers of the updates as tasks of one event
    loop, which give way to one another where a handler awaits.
    [get_key_handler] and [finalize_payment] await the membership checks
    of [calculate_limit] between [load_data] and [save_data]: another
    handler can run in between, and what they save then derives from the
    snapshot they loaded before.  The other handlers do not await between
    the two. *)

(** [get_key_handler] from the snapshot [data] that it loaded, resumed on
    the file [f]. *)
Definition get_key_resumed (cfg : Config) (o : oracle) (m : Sender) (w : Draw)
    (data : Snapshot) (f : file_state) : outcome key_reply * file_state :=
  let data := ensure_user (from_id m) (from_username m) data in
  match users data !! from_id m with
  | None => (Raised KeyError, f)
  | Some user_record =>
    let limit := run o (calculate_limit cfg (from_id m) user_record) in
    let used := Z.of_nat (length (keys user_record)) in
    if bool_decide (limit ≤ used) then
      (Done (LimitExceeded limit used), f)
    else
      let new_key_value := generate_key_string (key_random w) in
      let expiration_date := now_expiry w + thirty_days + zone_shift w in
      let key_obj :=
        mkKey (upper (token_hex (id_random w))) new_key_value
              expiration_date (now_created w) in
      let keys' := keys user_record ++ [key_obj] in
      let user_record' :=
        mkUser (username user_record) (manual_limit user_record)
               (Z.of_nat (length keys')) keys' in
      let data' :=
        mkData (<[from_id m := user_record']> (users data)) (pending data) in
      (Done (Issued new_key_value expiration_date
                    (Z.of_nat (length keys')) limit),
       save_data data')
  end.

(** [finalize_payment] from the snapshot [data] that it loaded, resumed
    on the file [f]. *)
Definition finalize_resumed (cfg : Config) (o : oracle) (sent : outcome unit)
    (comment_id : string) (data : Snapshot) (f : file_state)
  : outcome (option (Z * Z)) * file_state :=
  match pending data !! comment_id with
  | Some info =>
    let uid := user_id info in
    match users data !! uid with
    | Some u =>
      let current_manual :=
        match manual_limit u with
        | Some m => m
        | None => run o (calculate_limit cfg uid u)
        end in
      let u' :=
        mkUser (username u) (Some (current_manual + 1)) (keys_used u)
               (keys u) in
      let data' :=
        mkData (<[uid := u']> (users data))
               (delete comment_id (pending data)) in
      (match sent with
       | Done _ => Done (Some (uid, current_manual + 1))
       | Raised e => Raised e
       end,
       save_data data')
    | None => (Done None, f)
    end
  | None => (Done None, f)
  end.

(** A handler that has loaded the snapshot [data] and awaits. *)
Inductive suspended : Type :=
| InGetKey (o : oracle) (m : Sender) (w : Draw) (data : Snapshot)
| InFinalize (o : oracle) (sent : outcome unit) (comment_id : string)
             (data : Snapshot).

Definition loaded_by (t : suspended) : Snapshot :=
  match t with
  | InGetKey _ _ _ data => data
  | InFinalize _ _ _ data => data
  end.

(** What the event loop does next: the task numbered [t] starts on a
    request and runs to its end, or to the await after its [load_data];
    or the suspended task numbered [t] resumes and runs to its end. *)
Inductive event : Type :=
| Arrive (t : nat) (r : request)
| Resume (t : nat).

(** The file and the suspended tasks after one event. *)
Definition step (cfg : Config) (ev : event)
    (st : file_state * gmap nat suspended) : file_state * gmap nat suspended :=
  let (f, tasks) := st in
  match ev with
  | Arrive t (GetKey o m w) =>
    match load_data f with
    | Done data => (f, <[t := InGetKey o m w data]> tasks)
    | Raised _ => (f, tasks)
    end
  | Arrive t (FinalizePayment o sent c) =>
    match load_data f with
    | Done data => (f, <[t := InFinalize o sent c data]> tasks)
    | Raised _ => (f, tasks)
    end
  | Arrive _ r => (handle cfg r f, tasks)
  | Resume t =>
    match tasks !! t with
    | Some (InGetKey o m w data) =>
      ((get_key_resumed cfg o m w data f).2, delete t tasks)
    | Some (InFinalize o sent c data) =>
      ((finalize_resumed cfg o sent c data f).2, delete t tasks)
    | None => (f, tasks)
    end
  end.

Definition run_events (cfg : Config) (evs : list event)
    (st : file_state * gmap nat suspended) : file_state * gmap nat suspended :=
  foldl (fun st ev => step cfg ev st) st evs.

(** The events of requests handled one after another: each handler runs
    to its end before the next one starts. *)
Fixpoint one_after_another (rs : list request) : list event :=
  match rs with
  | [] => []
  | r :: rest => Arrive 0 r :: Resume 0 :: one_after_another rest
  end.

(** Every suspended task holds a snapshot with the property [P]. *)
Definition tasks_hold (P : Snapshot -> Prop) (tasks : gmap nat suspended)
  : Prop :=
  map_Forall (fun (_ : nat) t => P (loaded_by t)) tasks.

(** ** Further notions used in the statements *)

(** A record and what it has become: no key was removed or altered, and a
    manual limit, once set, is still set. *)
Definition record_grows (u u' : UserRecord) : Prop :=
  keys u `prefix_of` keys u'
  /\ (is_Some (manual_limit u) -> is_Some (manual_limit u')).

(** Every user of [d] is a user of [d'], with a record that has grown. *)
Definition store_grows (d d' : Snapshot) : Prop :=
  forall uid u, users d !! uid = Some u ->
    exists u', users d' !! uid = Some u' /\ record_grows u u'.

(** A relation between the snapshot that the file held and the one it
    holds now. *)
Definition between_stores (R : Snapshot -> Snapshot -> Prop)
    (f f' : file_state) : Prop :=
  forall d, load_data f = Done d -> exists d', load_data f' = Done d' /\ R d d'.

(** The greatest automatic limit: both reference chats count. *)
Definition max_auto_limit : Z := 2 * KEYS_PER_CHAT.

(** Users under the automatic limit hold no more keys than its greatest
    value. *)
Definition auto_users_bounded (d : Snapshot) : Prop :=
  map_Forall (fun (_ : Z) u =>
    manual_limit u = None -> Z.of_nat (length (keys u)) <= max_auto_limit)
    (users d).

(** No user has a manual limit. *)
Definition all_automatic (d : Snapshot) : Prop :=
  map_Forall (fun (_ : Z) u => manual_limit u = None) (users d).

(** Every pending payment waits, is of 0.5 TON, and is stored under a
    reference made of its payer's id and a second of the clock. *)
Definition pending_well_formed (d : Snapshot) : Prop :=
  map_Forall (fun c p =>
    status p = "waiting" /\ amount p = 500000000
    /\ exists now, c = payment_comment (user_id p) now) (pending d).

(** Whether the answer [o] gives for [chat] counts the user in. *)
Definition counted (o : oracle) (uid chat : Z) : bool :=
  bool_decide (chat ≠ 0) &&
  match o chat uid with
  | Done st => belongs st
  | Raised _ => false
  end.

(** In how many of the two reference chats the user is counted in. *)
Definition memberships (cfg : Config) (o : oracle) (uid : Z) : Z :=
  (if counted o uid (CHAT_ID_1 cfg) then 1 else 0)
  + (if counted o uid (CHAT_ID_2 cfg) then 1 else 0).

(** The warning that the check of the chat numbered [n] leaves. *)
Definition failure_of (o : oracle) (uid : Z) (n : nat) (chat : Z)
  : list (nat * exn) :=
  if bool_decide (chat ≠ 0) then
    match o chat uid with
    | Done _ => []
    | Raised e => [(n, e)]
    end
  else [].

(** The ten digits of ASCII. *)
Definition is_digit (c : ascii) : bool :=
  match digit_of c with
  | Some _ => true
  | None => false
  end.

(** Whether every character of [s] satisfies [p]. *)
Fixpoint all_chars (p : ascii -> bool) (s : string) : bool :=
  match s with
  | EmptyString => true
  | String c r => p c && all_chars p r
  end.

(** The digits [0-9] and the letters [A-F]. *)
Definition is_upper_hex (c : ascii) : bool :=
  let n := N_of_ascii c in
  ((48 <=? n)%N && (n <=? 57)%N) || ((65 <=? n)%N && (n <=? 70)%N).

(** The record of the sender as [ensure_user] leaves it. *)
Definition ensured (m : Sender) (d : Snapshot) : UserRecord :=
  match users d !! from_id m with
  | None => mkUser (from_username m) None 0 []
  | Some u => mkUser (from_username m) (manual_limit u) (keys_used u) (keys u)
  end.

(** Requests of a key by one sender, each with the membership answers and
    the draw it meets. *)
Definition requests_of (m : Sender) (ows : list (oracle * Draw))
  : list request :=
  map (fun ow => GetKey ow.1 m ow.2) ows.

(** The key that an issuance with the draw [w] makes. *)
Definition key_of_draw (w : Draw) : Key :=
  mkKey (upper (token_hex (id_random w))) (generate_key_string (key_random w))
        (now_expiry w + thirty_days + zone_shift w) (now_created w).

(** ** Further concrete inputs *)

(** User 7 holds two keys under the manual limit 8. *)
Definition store_7_manual_8 : Snapshot :=
  mkData {[ 7 := mkUser (Some "seven") (Some 8) 2
                   [key_of_draw draw_a; key_of_draw draw_b] ]} ∅.

(** An issuance in Berlin on 26 October 2024, the day before the clocks
    go back: the UTC offset is 2 h at the reading of the clock and 1 h at
    the expiry. *)
Definition draw_dst : Draw :=
  mkDraw [x12; x34; x56; x78]%byte [x9a; xbc; xde]%byte
         1729900000000000 1729900000000020 3600000000.

(** Seven requests, under various membership answers. *)
Definition seven_requests : list (oracle * Draw) :=
  [(o_left, draw_c); (o_down, draw_d); (o_member, draw_a); (o_mixed, draw_b);
   (o_left, draw_c); (o_left, draw_d); (o_member, draw_a)].

(** * Properties *)

(** ** The store *)

Lemma load_data_missing : load_data Missing = Done empty_snapshot.
Proof. reflexivity. Qed.

Lemma load_data_stored d : load_data (Stored d) = Done d.
Proof. reflexivity. Qed.

(** Text that is not JSON degrades to the empty snapshot. *)
Lemma load_data_not_json content :
  utf8_valid content = true ->
  load_data (Garbled content JSONDecodeError) = Done empty_snapshot.
Proof. intros H. unfold load_data; simpl. now rewrite H. Qed.

(** Bytes that are not UTF-8 make [load_data] raise. *)
Lemma load_data_not_utf8 content raised :
  utf8_valid content = false ->
  load_data (Garbled content raised) = Raised UnicodeDecodeError.
Proof. intros H. unfold load_data; simpl. now rewrite H. Qed.

(** What the parser raises on text, other than the two exceptions that
    the [except] clause names, leaves [load_data]. *)
Lemma load_data_parser_raises content raised :
  utf8_valid content = true ->
  raised ≠ JSONDecodeError -> raised ≠ FileNotFoundError ->
  load_data (Garbled content raised) = Raised raised.
Proof.
  intros H Hj Hf. unfold load_data; simpl. rewrite H.
  now destruct raised.
Qed.

(** [load_data] raises on garbled content only. *)
Lemma load_data_raises f e :
  load_data f = Raised e ->
  exists content raised, f = Garbled content raised.
Proof. destruct f as [|d|content raised]; try discriminate. eauto. Qed.

Lemma ensure_user_pending uid uname d :
  pending (ensure_user uid uname d) = pending d.
Proof. unfold ensure_user. now destruct (users d !! uid). Qed.

Lemma ensure_user_lookup uid uname d :
  users (ensure_user uid uname d) !! uid =
  Some match users d !! uid with
       | None => mkUser uname None 0 []
       | Some u => mkUser uname (manual_limit u) (keys_used u) (keys u)
       end.
Proof.
  unfold ensure_user.
  destruct (users d !! uid); simpl; apply lookup_insert_eq.
Qed.

Lemma ensure_user_lookup_ne uid uid' uname d :
  uid ≠ uid' ->
  users (ensure_user uid uname d) !! uid' = users d !! uid'.
Proof.
  intros Hne. unfold ensure_user.
  destruct (users d !! uid); simpl; now apply lookup_insert_ne.
Qed.

(** ** The entitlement calculator *)

Lemma run_bind {A B : Type} (o : oracle) (p : tg A) (f : A -> tg B) :
  run o (p ≫= f) = run o (f (run o p)).
Proof.
  unfold mbind, tg_mbind.
  induction p as [a|c u k IH|n u e k IH]; simpl; auto.
Qed.

Lemma asked_bind {A B : Type} (o : oracle) (p : tg A) (f : A -> tg B) :
  asked o (p ≫= f) = asked o p ++ asked o (f (run o p)).
Proof.
  unfold mbind, tg_mbind.
  induction p as [a|c u k IH|n u e k IH]; simpl; auto.
  now rewrite IH.
Qed.

(** The limit depends on the record through [manual_limit] alone. *)
Lemma calculate_limit_ext cfg uid u u' :
  manual_limit u = manual_limit u' ->
  calculate_limit cfg uid u = calculate_limit cfg uid u'.
Proof. unfold calculate_limit. now intros ->. Qed.

Lemma calculate_limit_auto cfg uid u :
  manual_limit u = None ->
  calculate_limit cfg uid u =
  (chat_check 1 (CHAT_ID_1 cfg) uid 0 ≫= fun limit =>
   chat_check 2 (CHAT_ID_2 cfg) uid limit ≫= fun limit =>
   Ret (if bool_decide (limit = 0) then 1 else limit)).
Proof. unfold calculate_limit. now intros ->. Qed.

Lemma run_chat_check o n chat uid limit :
  run o (chat_check n chat uid limit) = limit + bonus o chat uid.
Proof.
  unfold chat_check, bonus. case_bool_decide; simpl; [|lia].
  destruct (o chat uid) as [st|e]; simpl; [|lia].
  destruct (belongs st); lia.
Qed.

Lemma asked_chat_check o n chat uid limit :
  asked o (chat_check n chat uid limit) =
  if bool_decide (chat ≠ 0) then [(chat, uid)] else [].
Proof.
  unfold chat_check. case_bool_decide; simpl; [|done].
  now destruct (o chat uid) as [st|e].
Qed.

(** The value of the automatic limit. *)
Lemma run_calculate_limit_auto cfg o uid u :
  manual_limit u = None ->
  run o (calculate_limit cfg uid u) =
  let limit := bonus o (CHAT_ID_1 cfg) uid + bonus o (CHAT_ID_2 cfg) uid in
  if bool_decide (limit = 0) then 1 else limit.
Proof.
  intros Hm. rewrite calculate_limit_auto by done.
  rewrite !run_bind, !run_chat_check. simpl. now rewrite Z.add_0_l.
Qed.

Lemma bonus_range o chat uid :
  bonus o chat uid = 0 \/ bonus o chat uid = KEYS_PER_CHAT.
Proof.
  unfold bonus. case_bool_decide; auto.
  destruct (o chat uid) as [st|e]; auto. destruct (belongs st); auto.
Qed.

(** An automatic limit is 1, 3 or 6. *)
Lemma calculate_limit_auto_pos cfg o uid u :
  manual_limit u = None -> 1 <= run o (calculate_limit cfg uid u).
Proof.
  intros Hm. rewrite run_calculate_limit_auto by done. simpl.
  destruct (bonus_range o (CHAT_ID_1 cfg) uid) as [-> | ->],
    (bonus_range o (CHAT_ID_2 cfg) uid) as [-> | ->];
    unfold KEYS_PER_CHAT; case_bool_decide; lia.
Qed.

Lemma asked_calculate_limit_auto cfg o uid u :
  manual_limit u = None ->
  asked o (calculate_limit cfg uid u) = map (fun c => (c, uid)) (configured cfg).
Proof.
  intros Hm. rewrite calculate_limit_auto by done.
  rewrite !asked_bind, !asked_chat_check. simpl. rewrite app_nil_r.
  unfold configured. rewrite !filter_cons, filter_nil.
  destruct (decide (CHAT_ID_1 cfg ≠ 0)), (decide (CHAT_ID_2 cfg ≠ 0));
    repeat case_bool_decide; done.
Qed.

Lemma bonus_failures_as_left o chat uid :
  bonus (failures_as_left o) chat uid = bonus o chat uid.
Proof.
  unfold bonus, failures_as_left. case_bool_decide; [|done].
  now destruct (o chat uid).
Qed.

Lemma bonus_not_a_member o chat uid :
  (chat ≠ 0 -> not_a_member (o chat uid)) -> bonus o chat uid = 0.
Proof.
  unfold bonus, not_a_member. intros H. case_bool_decide; [|done].
  specialize (H ltac:(done)). destruct (o chat uid); [now rewrite H|done].
Qed.

(** C3. A record whose [manual_limit] is set to [M] has limit exactly [M]:
    [calculate_limit] returns it at once, so that no membership check is
    made and no answer of the Telegram API can change the result. *)
Theorem C3_manual_limit_is_returned cfg uid u M :
  manual_limit u = Some M ->
  calculate_limit cfg uid u = Ret M /\
  forall o : oracle,
    run o (calculate_limit cfg uid u) = M /\
    asked o (calculate_limit cfg uid u) = [].
Proof.
  intros Hm. unfold calculate_limit. rewrite Hm. auto.
Qed.

Lemma C3_manual_limit_is_returned_witness :
  calculate_limit cfg1 7 (mkUser None (Some 8) 0 []) = Ret 8 /\
  forall o : oracle,
    run o (calculate_limit cfg1 7 (mkUser None (Some 8) 0 [])) = 8 /\
    asked o (calculate_limit cfg1 7 (mkUser None (Some 8) 0 [])) = [].
Proof.
  apply (C3_manual_limit_is_returned cfg1 7 (mkUser None (Some 8) 0 []) 8).
  reflexivity.
Defined.

(** C4. With [manual_limit] unset, every configured chat is asked about,
    whatever the answers (a failed check does not stop the evaluation); a
    failed check counts exactly as the answer of a user who is not in the
    chat; and when every configured chat answers that the user does not
    belong, or fails, the limit is the baseline 1. *)
Theorem C4_baseline_and_failed_checks cfg o uid u :
  manual_limit u = None ->
  asked o (calculate_limit cfg uid u) = map (fun c => (c, uid)) (configured cfg)
  /\ run o (calculate_limit cfg uid u)
     = run (failures_as_left o) (calculate_limit cfg uid u)
  /\ ((forall chat, chat ∈ configured cfg -> not_a_member (o chat uid)) ->
      run o (calculate_limit cfg uid u) = 1).
Proof.
  intros Hm. split; [now apply asked_calculate_limit_auto|]. split.
  - rewrite !run_calculate_limit_auto by done.
    now rewrite !bonus_failures_as_left.
  - intros Hall. rewrite run_calculate_limit_auto by done.
    rewrite !bonus_not_a_member; [done| |].
    + intros Hc. apply Hall. unfold configured.
      apply list_elem_of_filter. split; [done|]. set_solver.
    + intros Hc. apply Hall. unfold configured.
      apply list_elem_of_filter. split; [done|]. set_solver.
Qed.

Lemma C4_baseline_and_failed_checks_witness :
  asked o_mixed (calculate_limit cfg2 7 fresh_user) = [(-1001, 7); (-1002, 7)]
  /\ run o_mixed (calculate_limit cfg2 7 fresh_user) = 1.
Proof.
  destruct (C4_baseline_and_failed_checks cfg2 o_mixed 7 fresh_user eq_refl)
    as (Hasked & _ & Hone).
  split; [exact Hasked|].
  apply Hone. intros chat _. unfold o_mixed, not_a_member.
  case_bool_decide; reflexivity.
Defined.

(** The failed check of the first chat is logged, and the second chat is
    asked all the same. *)
Example failed_check_is_logged :
  warned o_mixed (calculate_limit cfg2 7 fresh_user) = [(1%nat, TimeoutError)]
  /\ asked o_mixed (calculate_limit cfg2 7 fresh_user)
     = [(-1001, 7); (-1002, 7)].
Proof. split; reflexivity. Qed.

(** ** Reconciliation of payments *)

(** The limit that a payment is added to: the manual limit when it is
    set, else the limit that the calculator gives. *)
Lemma baseline_is_calculated cfg o uid u :
  match manual_limit u with
  | Some m => m
  | None => run o (calculate_limit cfg uid u)
  end = run o (calculate_limit cfg uid u).
Proof. unfold calculate_limit. now destruct (manual_limit u). Qed.

(** C2. A pending reference whose payer has a record is reconciled by the
    first call of [finalize_payment]: the payer's [manual_limit] becomes
    the baseline plus 1, the baseline being the manual limit when it was
    set and the calculated limit when it was not; nothing else of the
    payer's record and no other record changes; the pending entry is
    removed (and no other); the new snapshot is saved, and the new limit is
    answered (when the sending of the answer fails, after the saving, its
    exception is what the call ends with).  A second call with the same
    reference finds nothing pending: it answers nothing and leaves the file
    as it is, whatever the membership answers then. *)
Theorem C2_reconcile_once cfg o o' sent sent' c f d info u :
  load_data f = Done d ->
  pending d !! c = Some info ->
  users d !! user_id info = Some u ->
  let base := match manual_limit u with
              | Some m => m
              | None => run o (calculate_limit cfg (user_id info) u)
              end in
  exists d',
    finalize_payment cfg o sent c f
      = (match sent with
         | Done _ => Done (Some (user_id info, base + 1))
         | Raised e => Raised e
         end, Stored d')
    /\ users d' = <[user_id info :=
                     mkUser (username u) (Some (base + 1)) (keys_used u) (keys u)]>
                   (users d)
    /\ pending d' = delete c (pending d)
    /\ pending d' !! c = None
    /\ finalize_payment cfg o' sent' c (Stored d') = (Done None, Stored d').
Proof.
  intros Hload Hpend Huser base.
  eexists. split.
  { unfold finalize_payment. rewrite Hload, Hpend, Huser. reflexivity. }
  simpl. split; [reflexivity|]. split; [reflexivity|].
  split; [apply lookup_delete_eq|].
  unfold finalize_payment. simpl. now rewrite lookup_delete_eq.
Qed.

Lemma C2_reconcile_once_witness :
  exists d',
    finalize_payment cfg1 o_member (Done ()) "pay_7_1700000000"
                     (Stored store_7_buying)
      = (Done (Some (7, 3 + 1)), Stored d')
    /\ users d' = <[7 := mkUser (Some "seven") (Some (3 + 1)) 0 []]>
                   (users store_7_buying)
    /\ pending d' = delete "pay_7_1700000000" (pending store_7_buying)
    /\ pending d' !! "pay_7_1700000000" = None
    /\ finalize_payment cfg1 o_left (Done ()) "pay_7_1700000000" (Stored d')
       = (Done None, Stored d').
Proof.
  apply (C2_reconcile_once cfg1 o_member o_left (Done ()) (Done ())
           "pay_7_1700000000"
           (Stored store_7_buying) store_7_buying
           (mkPending 7 500000000 1700000000000005 "waiting") fresh_user).
  - reflexivity.
  - vm_compute. reflexivity.
  - vm_compute. reflexivity.
Defined.

(** C10. When the reference is pending but its payer has no record,
    [finalize_payment] answers nothing and leaves the file as it is: the
    pending entry stays, no limit changes, nothing is saved. *)
Theorem C10_unknown_payer_is_a_noop cfg o sent c f d info :
  load_data f = Done d ->
  pending d !! c = Some info ->
  users d !! user_id info = None ->
  finalize_payment cfg o sent c f = (Done None, f).
Proof.
  intros Hload Hpend Huser.
  unfold finalize_payment. now rewrite Hload, Hpend, Huser.
Qed.

Lemma C10_unknown_payer_is_a_noop_witness :
  finalize_payment cfg1 o_member (Done ()) "pay_9_1700000000"
                   (Stored store_9_unknown)
  = (Done None, Stored store_9_unknown).
Proof.
  apply (C10_unknown_payer_is_a_noop cfg1 o_member (Done ())
           "pay_9_1700000000"
           (Stored store_9_unknown) store_9_unknown
           (mkPending 9 500000000 1700000000000005 "waiting")).
  - reflexivity.
  - vm_compute. reflexivity.
  - vm_compute. reflexivity.
Defined.

(** ** Issuance *)

(** A property of records that [ensure_user] and the saved record of an
    issuance keep makes an invariant of [get_key_handler]. *)
Lemma ensure_user_Forall (P : Z -> UserRecord -> Prop) uid uname d :
  P uid (mkUser uname None 0 []) ->
  (forall u, P uid u ->
     P uid (mkUser uname (manual_limit u) (keys_used u) (keys u))) ->
  map_Forall P (users d) ->
  map_Forall P (users (ensure_user uid uname d)).
Proof.
  intros Hnew Hold Hall. unfold ensure_user.
  destruct (users d !! uid) as [u|] eqn:E; simpl;
    apply map_Forall_insert_2; auto.
Qed.

Lemma on_store_loaded P f d : load_data f = Done d -> on_store P f -> P d.
Proof. intros H. unfold on_store. now rewrite H. Qed.

Section Issuance.
Context (cfg : Config).

(** The refusal: enough keys already. *)
Lemma get_key_handler_refuses o m w f d u :
  load_data f = Done d ->
  users d !! from_id m = Some u ->
  run o (calculate_limit cfg (from_id m) u) <= Z.of_nat (length (keys u)) ->
  get_key_handler cfg o m w f =
  (Done (LimitExceeded (run o (calculate_limit cfg (from_id m) u))
                       (Z.of_nat (length (keys u)))), f).
Proof.
  intros Hload Hu Hle. unfold get_key_handler.
  rewrite Hload, ensure_user_lookup, Hu. simpl.
  rewrite (calculate_limit_ext cfg (from_id m) _ u) by reflexivity.
  now rewrite bool_decide_eq_true_2.
Qed.

(** One attempt keeps every user within the limit that the same answers
    give. *)
Lemma get_key_handler_within_limit o m w f :
  on_store (within_limit cfg o) f ->
  on_store (within_limit cfg o) (get_key_handler cfg o m w f).2.
Proof.
  intros Hinv. unfold get_key_handler.
  destruct (load_data f) as [d|e] eqn:Hload; [|done].
  apply (on_store_loaded _ _ _ Hload) in Hinv.
  assert (Hens : within_limit cfg o
                   (ensure_user (from_id m) (from_username m) d)).
  { apply ensure_user_Forall; [| |exact Hinv].
    - pose proof (calculate_limit_auto_pos cfg o (from_id m)
                    (mkUser (from_username m) None 0 []) eq_refl).
      simpl. lia.
    - intros u Hu. simpl.
      now rewrite (calculate_limit_ext cfg (from_id m) _ u). }
  destruct (users (ensure_user _ _ d) !! from_id m) as [ur|] eqn:Hur.
  2:{ simpl. unfold on_store. now rewrite Hload. }
  case_bool_decide as Hle; simpl.
  - unfold on_store. now rewrite Hload.
  - unfold on_store, within_limit. simpl.
    apply map_Forall_insert_2; [|exact Hens]. simpl.
    rewrite (calculate_limit_ext cfg (from_id m) _ ur) by reflexivity.
    rewrite length_app. simpl. lia.
Qed.

(** Users within their limits stay within limits that are no lower. *)
Lemma within_limit_no_lower o o' f :
  no_lower cfg o o' ->
  on_store (within_limit cfg o) f -> on_store (within_limit cfg o') f.
Proof.
  intros Hle. unfold on_store. destruct (load_data f) as [d|e]; [|done].
  unfold within_limit. intros Hall.
  eapply map_Forall_impl; [exact Hall|]. intros uid u Hu. simpl in Hu.
  specialize (Hle uid u). lia.
Qed.

Lemma attempts_within_limit oms : forall o f,
  limits_never_drop cfg o oms.*1 ->
  on_store (within_limit cfg o) f ->
  on_store (within_limit cfg (final_answers o oms.*1))
           (handle_all cfg (attempts oms) f).
Proof.
  induction oms as [|[o' [m w]] oms IH]; intros o f Hdrop Hinv; [exact Hinv|].
  destruct Hdrop as [Hle Hdrop]. simpl. apply IH; [exact Hdrop|].
  apply get_key_handler_within_limit.
  now apply (within_limit_no_lower o).
Qed.

(** C1, as amended.  A user who already has as many keys as the computed
    limit, or more, is answered [LimitExceeded] with that limit and that
    count, and the file is left as it is: no key is appended, nothing is
    saved.  Consequently, over every sequence of issuance attempts in
    which no user's limit decreases from one attempt to the next (the
    membership answers may change, and limits may rise), from a store in
    which every user is within the limit, every user is within the limit
    of the last attempt after the sequence (and so after each attempt of
    it, within the limit of that attempt). *)
Theorem C1_limit_is_enforced o :
  (forall m w f d u,
     load_data f = Done d ->
     users d !! from_id m = Some u ->
     run o (calculate_limit cfg (from_id m) u) <= Z.of_nat (length (keys u)) ->
     get_key_handler cfg o m w f =
     (Done (LimitExceeded (run o (calculate_limit cfg (from_id m) u))
                          (Z.of_nat (length (keys u)))), f))
  /\ (forall oms f,
        limits_never_drop cfg o oms.*1 ->
        on_store (within_limit cfg o) f ->
        on_store (within_limit cfg (final_answers o oms.*1))
                 (handle_all cfg (attempts oms) f)).
Proof.
  split.
  - intros m w f d u. apply get_key_handler_refuses.
  - intros oms f. apply attempts_within_limit.
Qed.

End Issuance.

(** Joining the reference chat lowers no limit. *)
Lemma no_lower_left_member : no_lower cfg1 o_left o_member.
Proof.
  intros uid u. unfold calculate_limit.
  destruct (manual_limit u); simpl; [lia|done].
Qed.

Lemma C1_limit_is_enforced_witness :
  get_key_handler cfg1 o_left user7 draw_b (Stored store_7_one_key)
    = (Done (LimitExceeded 1 1), Stored store_7_one_key)
  /\ on_store (within_limit cfg1 o_member)
       (handle_all cfg1
          (attempts [(o_left, (user7, draw_a)); (o_left, (user7, draw_b));
                     (o_member, (user7, draw_c)); (o_member, (user8, draw_d))])
          Missing).
Proof.
  destruct (C1_limit_is_enforced cfg1 o_left) as [Hrefuse Hseq].
  split.
  - apply (Hrefuse user7 draw_b (Stored store_7_one_key) store_7_one_key
             (mkUser (Some "seven") None 1
                [mkKey "AABBCC" "KVN-00112233"
                       1702592000000000 1700000000000010])).
    + reflexivity.
    + vm_compute. reflexivity.
    + vm_compute. discriminate.
  - apply (Hseq [(o_left, (user7, draw_a)); (o_left, (user7, draw_b));
                 (o_member, (user7, draw_c)); (o_member, (user8, draw_d))]).
    + simpl. repeat split; try apply no_lower_left_member;
        intros uid u; apply Z.le_refl.
    + unfold on_store, within_limit. simpl. apply map_Forall_empty.
Defined.

(** C1, as stated, fails.  User 7 is issued three keys while a member of
    the reference chat (limit 3) and then leaves it: the fourth attempt
    computes the limit 1 and is refused with [LimitExceeded 1 3], and the
    store after this sequence of attempts holds 3 keys against a limit
    of 1. *)
Lemma C1_counterexample :
  let before :=
    handle_all cfg1 [GetKey o_member user7 draw_a; GetKey o_member user7 draw_b;
                     GetKey o_member user7 draw_c] Missing in
  let after :=
    handle_all cfg1 [GetKey o_member user7 draw_a; GetKey o_member user7 draw_b;
                     GetKey o_member user7 draw_c; GetKey o_left user7 draw_d]
               Missing in
  get_key_handler cfg1 o_left user7 draw_d before
    = (Done (LimitExceeded 1 3), before)
  /\ exists d u,
       load_data after = Done d /\ users d !! 7 = Some u
       /\ length (keys u) = 3%nat
       /\ run o_left (calculate_limit cfg1 7 u) = 1
       /\ ~ (Z.of_nat (length (keys u)) <= run o_left (calculate_limit cfg1 7 u)).
Proof.
  split; [vm_compute; reflexivity|].
  eexists _, _. split; [vm_compute; reflexivity|].
  split; [vm_compute; reflexivity|].
  split; [reflexivity|]. split; [reflexivity|].
  vm_compute. intros H. now apply H.
Qed.

(** ** The counter [keys_used] *)

(** Case analysis on what the handler in the goal loaded: when the load
    raised, the handler left the file alone and the goal is the
    assumption. *)
Ltac on_loaded d Hload :=
  match goal with
  | |- context [load_data ?f] =>
      destruct (load_data f) as [d|?] eqn:Hload; [|done]
  end.

Lemma ensure_user_counters uid uname d :
  counters_exact d -> counters_exact (ensure_user uid uname d).
Proof. intros H. apply ensure_user_Forall; auto. Qed.

Lemma counters_exact_update d uid u u' :
  counters_exact d ->
  users d !! uid = Some u ->
  keys_used u' = keys_used u -> keys u' = keys u ->
  counters_exact (mkData (<[uid := u']> (users d)) (pending d)).
Proof.
  intros Hd Hu Hused Hkeys. unfold counters_exact. simpl.
  apply map_Forall_insert_2; [|exact Hd].
  rewrite Hused, Hkeys. exact (Hd _ _ Hu).
Qed.

Lemma my_keys_handler_unchanged m now f : (my_keys_handler m now f).2 = f.
Proof.
  unfold my_keys_handler. destruct (load_data f) as [d|e]; [|done].
  now destruct (users (ensure_user _ _ d) !! from_id m).
Qed.

Section Counters.
Context (cfg : Config).

Lemma start_cmd_counters m f :
  on_store counters_exact f -> on_store counters_exact (start_cmd cfg m f).2.
Proof.
  intros Hinv. unfold start_cmd. on_loaded d Hload.
  apply (on_store_loaded _ _ _ Hload) in Hinv.
  now apply ensure_user_counters.
Qed.

Lemma get_key_handler_counters o m w f :
  on_store counters_exact f ->
  on_store counters_exact (get_key_handler cfg o m w f).2.
Proof.
  intros Hinv. unfold get_key_handler. on_loaded d Hload.
  pose proof (on_store_loaded _ _ _ Hload Hinv) as Hd.
  apply (ensure_user_counters (from_id m) (from_username m)) in Hd.
  destruct (users (ensure_user _ _ d) !! from_id m) as [ur|]; [|done].
  case_bool_decide; [done|].
  unfold on_store, counters_exact. simpl.
  now apply map_Forall_insert_2.
Qed.

Lemma set_limit_callback_counters from cb f :
  on_store counters_exact f ->
  on_store counters_exact (set_limit_callback cfg from cb f).2.
Proof.
  intros Hinv. unfold set_limit_callback.
  destruct (negb _); [done|].
  destruct (split "_" cb) as [|? [|target [|lim [|? ?]]]]; try done.
  destruct (int lim) as [new_limit|]; [|done].
  on_loaded d Hload.
  pose proof (on_store_loaded _ _ _ Hload Hinv) as Hd.
  destruct (uid_of_key target) as [uid|]; [|done].
  destruct (users d !! uid) as [u|] eqn:Hu; [|done].
  now apply (counters_exact_update d uid u).
Qed.

Lemma buy_key_handler_counters m now now' f :
  on_store counters_exact f ->
  on_store counters_exact (buy_key_handler cfg m now now' f).2.
Proof.
  intros Hinv. unfold buy_key_handler. on_loaded d Hload.
  exact (on_store_loaded _ _ _ Hload Hinv).
Qed.

Lemma finalize_payment_counters o sent c f :
  on_store counters_exact f ->
  on_store counters_exact (finalize_payment cfg o sent c f).2.
Proof.
  intros Hinv. unfold finalize_payment. on_loaded d Hload.
  pose proof (on_store_loaded _ _ _ Hload Hinv) as Hd.
  destruct (pending d !! c) as [info|]; [|done].
  destruct (users d !! user_id info) as [u|] eqn:Hu; [|done].
  unfold on_store. simpl.
  now apply (counters_exact_update d (user_id info) u).
Qed.

Lemma handle_counters r f :
  on_store counters_exact f -> on_store counters_exact (handle cfg r f).
Proof.
  destruct r; simpl.
  - apply start_cmd_counters.
  - apply get_key_handler_counters.
  - now rewrite my_keys_handler_unchanged.
  - apply set_limit_callback_counters.
  - apply buy_key_handler_counters.
  - apply finalize_payment_counters.
Qed.

(** C6. The counter never drifts: from a store in which [keys_used] is
    the length of [keys] for every user (the empty store for one), it is
    so again after every sequence of requests: registration, issuance,
    listing, admin limit change, purchase, reconciliation. *)
Theorem C6_keys_used_is_length rs : forall f,
  on_store counters_exact f ->
  on_store counters_exact (handle_all cfg rs f).
Proof.
  induction rs as [|r rs IH]; intros f Hinv; [exact Hinv|].
  simpl. apply IH. now apply handle_counters.
Qed.

End Counters.

Lemma C6_keys_used_is_length_witness :
  on_store counters_exact
    (handle_all cfg1
       [Start user7; GetKey o_member user7 draw_a; MyKeys user7 1700000000000020;
        BuyKey user7 1700000000000000 1700000000000005;
        FinalizePayment o_member (Done ()) "pay_7_1700000000";
        SetLimit 1 "x_7_8"; GetKey o_member user7 draw_b]
       Missing).
Proof.
  apply (C6_keys_used_is_length cfg1).
  unfold on_store, counters_exact. simpl. apply map_Forall_empty.
Defined.

(** ** Credentials *)

Lemma hex_value_upper_hex_digit n :
  (n < 16)%N -> hex_value (upper_ascii (hex_digit n)) = n.
Proof.
  intros Hn. destruct n as [|p]; [reflexivity|].
  do 5 (try (destruct p as [p|p|]; try reflexivity; try lia)).
Qed.

Lemma byte_of_nibbles b b' :
  (Byte.to_N b / 16 = Byte.to_N b' / 16)%N ->
  (Byte.to_N b mod 16 = Byte.to_N b' mod 16)%N ->
  b = b'.
Proof.
  intros Hhi Hlo.
  assert (Byte.to_N b = Byte.to_N b') as Heq.
  { rewrite (N.div_mod (Byte.to_N b) 16), (N.div_mod (Byte.to_N b') 16) by lia.
    now rewrite Hhi, Hlo. }
  pose proof (Byte.of_to_N b) as H1. rewrite Heq, Byte.of_to_N in H1.
  congruence.
Qed.

Lemma nibbles_small b :
  (Byte.to_N b / 16 < 16)%N /\ (Byte.to_N b mod 16 < 16)%N.
Proof.
  pose proof (Byte.to_N_bounded b). split.
  - apply N.Div0.div_lt_upper_bound. lia.
  - apply N.mod_lt. lia.
Qed.

(** The upper-case hexadecimal rendering determines the bytes. *)
Lemma upper_token_hex_inj r : forall r',
  upper (token_hex r) = upper (token_hex r') -> r = r'.
Proof.
  induction r as [|b r IH]; intros [|b' r']; simpl; try discriminate; [done|].
  intros [= Hhi Hlo Hrest].
  apply (f_equal hex_value) in Hhi, Hlo.
  destruct (nibbles_small b), (nibbles_small b').
  rewrite !hex_value_upper_hex_digit in Hhi, Hlo by done.
  f_equal; [now apply byte_of_nibbles|now apply IH].
Qed.

#[global] Instance generate_key_string_inj : Inj (=) (=) generate_key_string.
Proof.
  intros r r'. unfold generate_key_string. simpl.
  intros [= H]. now apply upper_token_hex_inj.
Qed.

(** What a successful issuance answers and saves. *)
Lemma get_key_handler_issued cfg o m w f k e p l f' :
  get_key_handler cfg o m w f = (Done (Issued k e p l), f') ->
  k = generate_key_string (key_random w)
  /\ exists d' u ks,
      f' = Stored d' /\ users d' !! from_id m = Some u
      /\ keys u = ks ++ [mkKey (upper (token_hex (id_random w))) k
                               (now_expiry w + thirty_days + zone_shift w) (now_created w)].
Proof.
  unfold get_key_handler.
  destruct (load_data f) as [d|?]; [|discriminate].
  destruct (users (ensure_user _ _ d) !! from_id m) as [ur|]; [|discriminate].
  case_bool_decide; [discriminate|].
  intros [= <- <- <- <- <-]. split; [reflexivity|].
  eexists _, _, _. split; [reflexivity|]. simpl.
  rewrite lookup_insert_eq. split; reflexivity.
Qed.

(** C5, as amended.  The credential that a successful issuance answers
    and saves is [generate_key_string] of the 4 bytes drawn for it; two
    draws give the same credential exactly when they are the same bytes,
    so the credentials of N issuances are pairwise distinct exactly when
    the N draws are.  (Nothing compares a new credential with the stored
    ones.) *)
Theorem C5_credentials_distinct_as_draws :
  (forall cfg o m w f k e p l f',
     get_key_handler cfg o m w f = (Done (Issued k e p l), f') ->
     k = generate_key_string (key_random w)
     /\ exists d' u ks,
         f' = Stored d' /\ users d' !! from_id m = Some u
         /\ keys u = ks ++ [mkKey (upper (token_hex (id_random w))) k
                                  (now_expiry w + thirty_days + zone_shift w) (now_created w)])
  /\ (forall r r', generate_key_string r = generate_key_string r' <-> r = r')
  /\ (forall draws, NoDup (generate_key_string <$> draws) <-> NoDup draws).
Proof.
  split; [apply get_key_handler_issued|]. split.
  - intros r r'. split; [apply generate_key_string_inj|now intros ->].
  - intros draws. apply (NoDup_fmap generate_key_string).
Qed.

Lemma C5_credentials_distinct_as_draws_witness :
  "KVN-CCDDEEFF" = generate_key_string (key_random draw_d)
  /\ NoDup (generate_key_string <$>
              [key_random draw_a; key_random draw_b; key_random draw_c]).
Proof.
  destruct C5_credentials_distinct_as_draws as (Hissued & _ & Hnodup).
  split.
  - apply (Hissued cfg1 o_left user7 draw_d Missing
             "KVN-CCDDEEFF" 1702592300000000 1 1
             (get_key_handler cfg1 o_left user7 draw_d Missing).2).
    vm_compute. reflexivity.
  - apply Hnodup. unfold draw_a, draw_b, draw_c. simpl.
    repeat (apply NoDup_cons; split); try apply NoDup_nil_2;
      intros Hin;
      repeat (apply elem_of_cons in Hin as [Hin|Hin]; [discriminate Hin|]);
      inversion Hin.
Defined.

(** C5, as stated, fails.  Users 7 and 8 are each issued a key; the two
    calls draw the same 4 bytes and answer the same credential. *)
Lemma C5_counterexample :
  let draw_a' := mkDraw (key_random draw_a) (id_random draw_b)
                        (now_expiry draw_b) (now_created draw_b) 0 in
  let first := get_key_handler cfg1 o_left user7 draw_a Missing in
  let second := get_key_handler cfg1 o_left user8 draw_a' first.2 in
  first.1 = Done (Issued "KVN-00112233" 1702592000000000 1 1)
  /\ second.1 = Done (Issued "KVN-00112233" 1702592100000000 1 1)
  /\ exists d u7 u8,
       second.2 = Stored d
       /\ users d !! 7 = Some u7 /\ users d !! 8 = Some u8
       /\ key <$> keys u7 = ["KVN-00112233"]
       /\ key <$> keys u8 = ["KVN-00112233"].
Proof.
  split; [vm_compute; reflexivity|]. split; [vm_compute; reflexivity|].
  eexists _, _, _. split; [vm_compute; reflexivity|].
  split; [vm_compute; reflexivity|]. split; [vm_compute; reflexivity|].
  split; reflexivity.
Qed.

(** ** Payment references *)

Lemma has_char_app c s t :
  has_char c (s +:+ t) = has_char c s || has_char c t.
Proof.
  induction s as [|c' s IH]; simpl; [done|].
  now rewrite IH, orb_assoc.
Qed.

Lemma pretty_N_char_not_underscore d : pretty_N_char d ≠ "_"%char.
Proof. unfold pretty_N_char. repeat case_match; discriminate. Qed.

Lemma pretty_N_go_underscore x : forall s,
  has_char "_" (pretty_N_go x s) = has_char "_" s.
Proof.
  induction (N.lt_wf_0 x) as [x _ IH]; intros s.
  assert (x = 0 \/ 0 < x)%N as [->|Hpos] by lia.
  - now rewrite pretty_N_go_0.
  - rewrite pretty_N_go_step by done.
    rewrite IH by (apply N.div_lt; lia). simpl.
    pose proof (pretty_N_char_not_underscore (x `mod` 10)%N) as Hc.
    destruct (Ascii.eqb_spec (pretty_N_char (x `mod` 10)%N) "_"); [done|].
    reflexivity.
Qed.

(** A decimal rendering holds no underscore. *)
Lemma str_no_underscore n : has_char "_" (str n) = false.
Proof.
  unfold str, pretty, pretty_Z.
  destruct n as [|p|p]; [reflexivity| |].
  - unfold pretty, pretty_positive, pretty, pretty_N.
    case_decide; [done|]. now rewrite pretty_N_go_underscore.
  - rewrite has_char_app. simpl.
    unfold pretty, pretty_positive, pretty, pretty_N.
    case_decide; [done|]. now rewrite pretty_N_go_underscore.
Qed.

(** The text before the first separator, and the text after it, are
    determined. *)
Lemma append_sep_inj c a : forall a' b b',
  has_char c a = false -> has_char c a' = false ->
  a +:+ String c b = a' +:+ String c b' -> a = a' /\ b = b'.
Proof.
  induction a as [|x a IH]; intros [|x' a'] b b'; simpl.
  - intros _ _ [= ->]. done.
  - intros _ Hx' [= <- _]. rewrite Ascii.eqb_refl in Hx'. discriminate.
  - intros Hx _ [= -> _]. rewrite Ascii.eqb_refl in Hx. discriminate.
  - intros Hx Hx' [= -> Hrest].
    apply orb_false_iff in Hx as [_ Hx], Hx' as [_ Hx'].
    destruct (IH _ _ _ Hx Hx' Hrest) as [-> ->]. done.
Qed.

Lemma payment_comment_inj uid now uid' now' :
  payment_comment uid now = payment_comment uid' now' <->
  uid = uid' /\ now `quot` 1000000 = now' `quot` 1000000.
Proof.
  unfold payment_comment. split.
  - simpl. intros [= H].
    apply append_sep_inj in H as [Hu Ht]; try apply str_no_underscore.
    split; [now apply (inj str)|now apply (inj str)].
  - now intros [-> ->].
Qed.

Lemma buy_key_handler_saves cfg m now now' f d :
  load_data f = Done d ->
  exists link,
    buy_key_handler cfg m now now' f =
    (Done (link, payment_comment (from_id m) now),
     Stored (mkData (users d)
               (<[payment_comment (from_id m) now :=
                    mkPending (from_id m) 500000000 now' "waiting"]>
                  (pending d)))).
Proof.
  intros Hload. unfold buy_key_handler. rewrite Hload. eauto.
Qed.

(** C8, as amended.  The reference of a purchase is [pay_], the user id,
    an underscore and the whole seconds of the clock: two purchases have
    the same reference exactly when they are made by the same user within
    the same second.  The pending payment is stored under the reference
    without a look at the pending set, so that a reference already
    pending has its entry overwritten. *)
Theorem C8_reference_by_user_and_second :
  (forall uid now uid' now',
     payment_comment uid now = payment_comment uid' now' <->
     uid = uid' /\ now `quot` 1000000 = now' `quot` 1000000)
  /\ (forall cfg m now now' f d,
        load_data f = Done d ->
        exists link,
          buy_key_handler cfg m now now' f =
          (Done (link, payment_comment (from_id m) now),
           Stored (mkData (users d)
                     (<[payment_comment (from_id m) now :=
                          mkPending (from_id m) 500000000 now' "waiting"]>
                        (pending d))))).
Proof.
  split.
  - apply payment_comment_inj.
  - apply buy_key_handler_saves.
Qed.

Lemma C8_reference_by_user_and_second_witness :
  payment_comment 7 1700000000000000 ≠ payment_comment 8 1700000000000000
  /\ exists link,
       buy_key_handler cfg1 user7 1700000000000000 1700000000000005 Missing =
       (Done (link, payment_comment 7 1700000000000000),
        Stored (mkData ∅
                  (<[payment_comment 7 1700000000000000 :=
                       mkPending 7 500000000 1700000000000005 "waiting"]> ∅))).
Proof.
  destruct C8_reference_by_user_and_second as [Hinj Hsave].
  split.
  - intros Heq. apply Hinj in Heq as [Huid _]. discriminate Huid.
  - apply (Hsave cfg1 user7 1700000000000000 1700000000000005 Missing
             empty_snapshot).
    reflexivity.
Defined.

(** C8, as stated, fails.  User 7 starts two purchases 0.4 s apart, within
    one second of the clock.  The second call generates the reference of
    the first, which is pending at that time, and overwrites its entry:
    one pending payment is left, that of the second call. *)
Lemma C8_counterexample :
  let first :=
    buy_key_handler cfg1 user7 1700000000000000 1700000000000005 Missing in
  let second :=
    buy_key_handler cfg1 user7 1700000000400000 1700000000400005 first.2 in
  exists link d1 d2,
    first = (Done (link, "pay_7_1700000000"), Stored d1)
    /\ pending d1 !! "pay_7_1700000000"
       = Some (mkPending 7 500000000 1700000000000005 "waiting")
    /\ second = (Done (link, "pay_7_1700000000"), Stored d2)
    /\ map_to_list (pending d2)
       = [("pay_7_1700000000",
           mkPending 7 500000000 1700000000400005 "waiting")].
Proof.
  eexists _, _, _. split; [vm_compute; reflexivity|].
  split; [vm_compute; reflexivity|].
  split; [vm_compute; reflexivity|].
  vm_compute. reflexivity.
Qed.

(** ** The admin override *)

Lemma count_char_app c s t :
  count_char c (s +:+ t) = (count_char c s + count_char c t)%nat.
Proof.
  induction s as [|c' s IH]; simpl; [done|]. rewrite IH. lia.
Qed.

(** [split] yields one field more than there are separators. *)
Lemma length_split sep s : length (split sep s) = S (count_char sep s).
Proof.
  induction s as [|c s IH]; simpl; [done|].
  destruct (Ascii.eqb c sep); simpl; [now rewrite IH|].
  destruct (split sep s) as [|h t]; simpl in *; [discriminate|done].
Qed.

(** The unpacking into three names fails on four fields or more. *)
Lemma set_limit_callback_too_many_fields cfg from cb f :
  from ∈ ADMINS cfg ->
  (3 <= count_char "_" cb)%nat ->
  set_limit_callback cfg from cb f = (Raised ValueError, f).
Proof.
  intros Hadmin Hcount. unfold set_limit_callback.
  rewrite bool_decide_eq_true_2 by done. simpl.
  pose proof (length_split "_" cb) as Hlen.
  destruct (split "_" cb) as [|? [|? [|? [|? ?]]]]; simpl in Hlen;
    try reflexivity; lia.
Qed.

Lemma keyboard_callback_data target button :
  button ∈ get_admin_limits_keyboard target ->
  exists lim, button.2 = "set_lim_" +:+ target +:+ "_" +:+ str lim.
Proof.
  unfold get_admin_limits_keyboard. intros Hin.
  apply list_elem_of_fmap in Hin as (lim & -> & _). eauto.
Qed.

(** C7 does not hold of the code: the data of every button that
    [get_admin_limits_keyboard] builds, [set_lim_<id>_<limit>], splits at
    its underscores into four fields or more, so that for an admin
    [set_limit_callback] raises [ValueError] at the unpacking into three
    names and leaves the file as it is: no [manual_limit] is written. *)
Theorem C7_set_limit_raises_on_keyboard_data cfg from target button f :
  from ∈ ADMINS cfg ->
  button ∈ get_admin_limits_keyboard target ->
  routed_to_set_limit button.2 = true
  /\ set_limit_callback cfg from button.2 f = (Raised ValueError, f).
Proof.
  intros Hadmin Hin.
  apply keyboard_callback_data in Hin as [lim ->]. split.
  { unfold routed_to_set_limit. simpl.
    now destruct (target +:+ "_" +:+ str lim). }
  apply set_limit_callback_too_many_fields; [done|].
  change ("set_lim_" +:+ target +:+ "_" +:+ str lim)
    with ("set_lim_" +:+ (target +:+ ("_" +:+ str lim))).
  rewrite !count_char_app. simpl. lia.
Qed.

Lemma C7_set_limit_raises_on_keyboard_data_witness :
  routed_to_set_limit "set_lim_7_8" = true
  /\ set_limit_callback cfg1 1 "set_lim_7_8" (Stored store_7_buying)
     = (Raised ValueError, Stored store_7_buying).
Proof.
  apply (C7_set_limit_raises_on_keyboard_data cfg1 1 "7" ("8", "set_lim_7_8")
           (Stored store_7_buying)).
  - apply list_elem_of_here.
  - unfold get_admin_limits_keyboard. simpl.
    apply list_elem_of_further, list_elem_of_here.
Defined.

Lemma prefix_split p : forall s,
  String.prefix p s = true -> exists r, s = p +:+ r.
Proof.
  induction p as [|a p IH]; intros s H; [now exists s|].
  destruct s as [|b s]; simpl in H; [discriminate|].
  destruct (ascii_dec a b) as [->|]; [|discriminate].
  apply IH in H as [r ->]. now exists r.
Qed.

(** No callback that reaches [set_limit_callback] changes the file: data
    that starts with [set_lim_] either has too many fields, or names the
    target [lim], which is the key of no user. *)
Lemma set_limit_callback_routed_never_saves cfg from cb f :
  routed_to_set_limit cb = true ->
  (set_limit_callback cfg from cb f).2 = f.
Proof.
  intros Hrouted. apply prefix_split in Hrouted as [rest ->].
  unfold set_limit_callback.
  destruct (negb _); [done|]. simpl. change ("" +:+ rest) with rest.
  destruct (split "_" rest) as [|lim [|? ?]]; try reflexivity.
  destruct (int lim); [|reflexivity].
  now destruct (load_data f).
Qed.

(** ** Loading the store *)

Example utf8_valid_accepts :
  utf8_valid [x7b; xc3; xa9; xe2; x82; xac; xf0; x9f; x98; x80; x7d]%byte = true.
Proof. reflexivity. Qed.

Example utf8_valid_rejects :
  map utf8_valid
      [[xff]; [x80]; [xc0; x80]; [xc3]; [xed; xa0; x80]; [xf4; x90; x80; x80];
       [x7b; xe2; x82]]%byte
  = [false; false; false; false; false; false; false].
Proof. reflexivity. Qed.

(** C9 does not hold of the code in full.  [load_data] gives the empty
    snapshot when the file is missing and when its text makes [json.load]
    raise [JSONDecodeError]; but when the bytes of the file are not UTF-8,
    as for the single byte [0xFF], it raises [UnicodeDecodeError] to its
    caller, since the [except] clause names [JSONDecodeError] and
    [FileNotFoundError] only; and for the same reason any other exception
    of the parser on text that is no JSON document reaches the caller. *)
Theorem C9_load_data_raises_on_undecodable_file :
  load_data Missing = Done empty_snapshot
  /\ (forall content,
        utf8_valid content = true ->
        load_data (Garbled content JSONDecodeError) = Done empty_snapshot)
  /\ (forall content raised,
        utf8_valid content = false ->
        load_data (Garbled content raised) = Raised UnicodeDecodeError)
  /\ (forall raised,
        load_data (Garbled [xff]%byte raised) = Raised UnicodeDecodeError)
  /\ (forall content raised,
        utf8_valid content = true ->
        raised ≠ JSONDecodeError -> raised ≠ FileNotFoundError ->
        load_data (Garbled content raised) = Raised raised).
Proof.
  split; [reflexivity|]. split; [apply load_data_not_json|].
  split; [apply load_data_not_utf8|]. split; [reflexivity|].
  apply load_data_parser_raises.
Qed.

Lemma C9_load_data_raises_on_undecodable_file_witness :
  load_data (Garbled [x7b; x22]%byte JSONDecodeError) = Done empty_snapshot
  /\ load_data (Garbled [x7b; xff; x7d]%byte JSONDecodeError)
     = Raised UnicodeDecodeError
  /\ load_data (Garbled [x5b; x5b; x5b]%byte RecursionError)
     = Raised RecursionError.
Proof.
  destruct C9_load_data_raises_on_undecodable_file
    as (_ & Htext & Hbytes & _ & Hparser).
  split; [apply Htext; reflexivity|].
  split; [apply Hbytes; reflexivity|].
  apply Hparser; [reflexivity|discriminate|discriminate].
Defined.

(** * Further properties *)

(** ** Registration *)

Lemma ensure_user_eq m d :
  ensure_user (from_id m) (from_username m) d
  = mkData (<[from_id m := ensured m d]> (users d)) (pending d).
Proof. unfold ensure_user, ensured. now destruct (users d !! from_id m). Qed.

(** X1. [ensure_user] never resets an existing user: the record keeps its
    [manual_limit], its counter and its keys, and takes the username
    given; every other user and the pending payments are as before. *)
Theorem X1_ensure_user_keeps_existing uid uname d u :
  users d !! uid = Some u ->
  users (ensure_user uid uname d) !! uid
    = Some (mkUser uname (manual_limit u) (keys_used u) (keys u))
  /\ (forall uid', uid' ≠ uid ->
        users (ensure_user uid uname d) !! uid' = users d !! uid')
  /\ pending (ensure_user uid uname d) = pending d.
Proof.
  intros Hu. split; [|split].
  - now rewrite ensure_user_lookup, Hu.
  - intros uid' Hne. now apply ensure_user_lookup_ne.
  - apply ensure_user_pending.
Qed.

Lemma X1_ensure_user_keeps_existing_witness :
  users (ensure_user 7 (Some "renamed") store_7_one_key) !! 7
    = Some (mkUser (Some "renamed") None 1
              [mkKey "AABBCC" "KVN-00112233"
                     1702592000000000 1700000000000010])
  /\ (forall uid', uid' ≠ 7 ->
        users (ensure_user 7 (Some "renamed") store_7_one_key) !! uid'
        = users store_7_one_key !! uid')
  /\ pending (ensure_user 7 (Some "renamed") store_7_one_key)
     = pending store_7_one_key.
Proof.
  apply (X1_ensure_user_keeps_existing 7 (Some "renamed") store_7_one_key
           (mkUser (Some "seven") None 1
              [mkKey "AABBCC" "KVN-00112233"
                     1702592000000000 1700000000000010])).
  vm_compute. reflexivity.
Defined.

(** X2. Registering twice is registering once with the later username:
    [ensure_user] absorbs an earlier [ensure_user] of the same id. *)
Theorem X2_ensure_user_absorbs uid uname uname' d :
  ensure_user uid uname' (ensure_user uid uname d) = ensure_user uid uname' d.
Proof.
  unfold ensure_user at 1. rewrite ensure_user_lookup.
  unfold ensure_user. destruct (users d !! uid) as [u|]; simpl;
    now rewrite insert_insert_eq.
Qed.

(** ** The automatic limit *)

Lemma bonus_counted o chat uid :
  bonus o chat uid = if counted o uid chat then KEYS_PER_CHAT else 0.
Proof.
  unfold bonus, counted. case_bool_decide; simpl; [|done].
  now destruct (o chat uid).
Qed.

Lemma warned_bind {A B : Type} (o : oracle) (p : tg A) (f : A -> tg B) :
  warned o (p ≫= f) = warned o p ++ warned o (f (run o p)).
Proof.
  unfold mbind, tg_mbind.
  induction p as [a|c u k IH|n u e k IH]; simpl; auto.
  now rewrite IH.
Qed.

Lemma warned_chat_check o n chat uid limit :
  warned o (chat_check n chat uid limit) = failure_of o uid n chat.
Proof.
  unfold chat_check, failure_of. case_bool_decide; simpl; [|done].
  now destruct (o chat uid).
Qed.

Lemma calculate_limit_auto_le cfg o uid u :
  manual_limit u = None -> run o (calculate_limit cfg uid u) <= max_auto_limit.
Proof.
  intros Hm. rewrite run_calculate_limit_auto by done. simpl.
  destruct (bonus_range o (CHAT_ID_1 cfg) uid) as [-> | ->],
    (bonus_range o (CHAT_ID_2 cfg) uid) as [-> | ->];
    unfold max_auto_limit, KEYS_PER_CHAT; case_bool_decide; lia.
Qed.

(** X3. Without a manual limit, the limit is [KEYS_PER_CHAT] times the
    number of reference chats (configured, and answering with one of the
    three statuses that count) in which the user is, and 1 when there is
    none: it is 1, 3 or 6. *)
Theorem X3_automatic_limit_value cfg o uid u :
  manual_limit u = None ->
  run o (calculate_limit cfg uid u)
    = (if bool_decide (memberships cfg o uid = 0) then 1
       else KEYS_PER_CHAT * memberships cfg o uid)
  /\ run o (calculate_limit cfg uid u) ∈ [1; 3; 6].
Proof.
  intros Hm. rewrite run_calculate_limit_auto by done. simpl.
  rewrite !bonus_counted. unfold memberships, KEYS_PER_CHAT.
  destruct (counted o uid (CHAT_ID_1 cfg)), (counted o uid (CHAT_ID_2 cfg));
    simpl; split; try reflexivity; set_solver.
Qed.

Lemma X3_automatic_limit_value_witness :
  run o_member (calculate_limit cfg2 7 fresh_user) = 6
  /\ run o_member (calculate_limit cfg2 7 fresh_user) ∈ [1; 3; 6].
Proof.
  apply (X3_automatic_limit_value cfg2 o_member 7 fresh_user). reflexivity.
Defined.

(** X4. Without a manual limit, [calculate_limit] logs one warning for
    each configured chat whose check fails, with the number of the chat
    and the exception, chat 1 before chat 2, and nothing else. *)
Theorem X4_one_warning_per_failed_check cfg o uid u :
  manual_limit u = None ->
  warned o (calculate_limit cfg uid u)
    = failure_of o uid 1 (CHAT_ID_1 cfg) ++ failure_of o uid 2 (CHAT_ID_2 cfg).
Proof.
  intros Hm. rewrite calculate_limit_auto by done.
  rewrite !warned_bind, !warned_chat_check. simpl. now rewrite app_nil_r.
Qed.

Lemma X4_one_warning_per_failed_check_witness :
  warned o_down (calculate_limit cfg2 7 fresh_user)
    = [(1%nat, TimeoutError); (2%nat, TimeoutError)].
Proof.
  apply (X4_one_warning_per_failed_check cfg2 o_down 7 fresh_user).
  reflexivity.
Defined.

(** ** The form of a credential *)

Lemma upper_hex_digit_is_upper_hex n :
  (n < 16)%N -> is_upper_hex (upper_ascii (hex_digit n)) = true.
Proof.
  intros Hn. destruct n as [|p]; [reflexivity|].
  do 5 (try (destruct p as [p|p|]; try reflexivity; try lia)).
Qed.

Lemma upper_token_hex_form r :
  String.length (upper (token_hex r)) = (2 * length r)%nat
  /\ all_chars is_upper_hex (upper (token_hex r)) = true.
Proof.
  induction r as [|b r [IHlen IHall]]; [done|]. simpl.
  destruct (nibbles_small b) as [Hhi Hlo].
  rewrite !upper_hex_digit_is_upper_hex by done.
  split; [lia|done].
Qed.

(** X5. A credential is [KVN-] followed by two characters for each byte
    drawn, all of them digits or upper-case letters from A to F; for the 4
    bytes that an issuance draws, these are 8 characters. *)
Theorem X5_credential_form r :
  exists s,
    generate_key_string r = "KVN-" +:+ s
    /\ String.length s = (2 * length r)%nat
    /\ all_chars is_upper_hex s = true.
Proof.
  exists (upper (token_hex r)). split; [reflexivity|].
  apply upper_token_hex_form.
Qed.

(** ** Granting a key *)

(** [get_key_handler] on a file that can be read, in one equation. *)
Lemma get_key_handler_eq cfg o m w f d :
  load_data f = Done d ->
  get_key_handler cfg o m w f =
  let u := ensured m d in
  let limit := run o (calculate_limit cfg (from_id m) u) in
  let used := Z.of_nat (length (keys u)) in
  if bool_decide (limit ≤ used) then (Done (LimitExceeded limit used), f)
  else
    (Done (Issued (generate_key_string (key_random w))
                  (now_expiry w + thirty_days + zone_shift w) (used + 1) limit),
     Stored (mkData
               (<[from_id m := mkUser (username u) (manual_limit u) (used + 1)
                                      (keys u ++ [key_of_draw w])]> (users d))
               (pending d))).
Proof.
  intros Hload. unfold get_key_handler. rewrite Hload, ensure_user_eq.
  cbn [users pending]. rewrite lookup_insert_eq. simpl.
  case_bool_decide; [reflexivity|].
  rewrite insert_insert_eq, length_app, Nat2Z.inj_add. reflexivity.
Qed.

(** X6. The first request of a user who has no record is always granted
    when the file can be read: the user is registered with the key as the
    only one, and the counter 1; the other users and the pending payments
    are as before. *)
Theorem X6_unregistered_user_is_granted cfg o m w f d :
  load_data f = Done d ->
  users d !! from_id m = None ->
  get_key_handler cfg o m w f =
  (Done (Issued (generate_key_string (key_random w))
                (now_expiry w + thirty_days + zone_shift w) 1
                (run o (calculate_limit cfg (from_id m)
                          (mkUser (from_username m) None 0 [])))),
   Stored (mkData (<[from_id m := mkUser (from_username m) None 1
                                         [key_of_draw w]]> (users d))
                  (pending d))).
Proof.
  intros Hload Hnew. rewrite (get_key_handler_eq _ _ _ _ _ _ Hload).
  unfold ensured. rewrite Hnew. simpl.
  pose proof (calculate_limit_auto_pos cfg o (from_id m)
                (mkUser (from_username m) None 0 []) eq_refl) as Hpos.
  rewrite bool_decide_eq_false_2 by lia. reflexivity.
Qed.

Lemma X6_unregistered_user_is_granted_witness :
  get_key_handler cfg1 o_down user8 draw_c (Stored store_7_one_key) =
  (Done (Issued "KVN-8899AABB" 1702592200000000 1 1),
   Stored (mkData (<[8 := mkUser None None 1 [key_of_draw draw_c]]>
                     (users store_7_one_key))
                  (pending store_7_one_key))).
Proof.
  apply (X6_unregistered_user_is_granted cfg1 o_down user8 draw_c
           (Stored store_7_one_key) store_7_one_key).
  - reflexivity.
  - vm_compute. reflexivity.
Defined.

(** X7. A registered user with fewer keys than the limit is granted one:
    the new key carries the bytes drawn and expires 30 days after the
    clock was read as the local wall clock counts them, that is 30 times
    86400 seconds later, shifted by the change of the UTC offset between
    the two times (no shift without a daylight-saving change); it is
    appended after the keys held, the counter is their new number, the
    username is refreshed and the manual limit kept; the other users and
    the pending payments are as before; the answer carries the
    credential, the expiry, the new number of keys and the limit. *)
Theorem X7_grant_appends_one_key cfg o m w f d u :
  load_data f = Done d ->
  users d !! from_id m = Some u ->
  Z.of_nat (length (keys u)) < run o (calculate_limit cfg (from_id m) u) ->
  get_key_handler cfg o m w f =
  (Done (Issued (generate_key_string (key_random w))
                (now_expiry w + thirty_days + zone_shift w)
                (Z.of_nat (length (keys u)) + 1)
                (run o (calculate_limit cfg (from_id m) u))),
   Stored (mkData
             (<[from_id m := mkUser (from_username m) (manual_limit u)
                                    (Z.of_nat (length (keys u)) + 1)
                                    (keys u ++ [key_of_draw w])]> (users d))
             (pending d))).
Proof.
  intros Hload Hu Hlt. rewrite (get_key_handler_eq _ _ _ _ _ _ Hload).
  unfold ensured. rewrite Hu. simpl.
  rewrite (calculate_limit_ext cfg (from_id m) _ u) by reflexivity.
  rewrite bool_decide_eq_false_2 by lia. reflexivity.
Qed.

Lemma X7_grant_appends_one_key_witness :
  get_key_handler cfg1 o_member user7 draw_dst (Stored store_7_one_key) =
  (Done (Issued "KVN-12345678" 1732495600000000 2 3),
   Stored (mkData
             (<[7 := mkUser (Some "seven") None 2
                       [mkKey "AABBCC" "KVN-00112233"
                              1702592000000000 1700000000000010;
                        mkKey "9ABCDE" "KVN-12345678"
                              1732495600000000 1729900000000020]]>
                (users store_7_one_key))
             (pending store_7_one_key))).
Proof.
  apply (X7_grant_appends_one_key cfg1 o_member user7 draw_dst
           (Stored store_7_one_key) store_7_one_key
           (mkUser (Some "seven") None 1
              [mkKey "AABBCC" "KVN-00112233"
                     1702592000000000 1700000000000010])).
  - reflexivity.
  - vm_compute. reflexivity.
  - vm_compute. reflexivity.
Defined.

(** X8. Under a manual limit [M], a user who holds [n] keys and asks
    [k] times for a key ends with [n + k] keys when that is at most [M],
    with [M] keys when [n <= M < n + k], and with the [n] keys held when
    [M < n]; the membership answers play no part, and the manual limit
    stays [M]. *)
Theorem X8_requests_under_manual_limit cfg m M ows : forall f d u,
  load_data f = Done d ->
  users d !! from_id m = Some u ->
  manual_limit u = Some M ->
  exists d' u',
    load_data (handle_all cfg (requests_of m ows) f) = Done d'
    /\ users d' !! from_id m = Some u'
    /\ manual_limit u' = Some M
    /\ Z.of_nat (length (keys u'))
       = Z.max (Z.of_nat (length (keys u)))
               (Z.min (Z.of_nat (length (keys u)) + Z.of_nat (length ows)) M).
Proof.
  induction ows as [|[o w] ows IH]; intros f d u Hload Hu HM.
  - exists d, u. repeat split; try done. simpl. lia.
  - simpl. rewrite (get_key_handler_eq _ _ _ _ _ _ Hload).
    unfold ensured. rewrite Hu. cbn zeta. cbn [manual_limit keys username].
    assert (Hlim : forall un ku ks,
              run o (calculate_limit cfg (from_id m) (mkUser un (Some M) ku ks))
              = M) by reflexivity.
    rewrite HM, Hlim.
    case_bool_decide as Hle; cbn [snd].
    + destruct (IH f d u Hload Hu HM) as (d' & u' & Hl & Hu' & HM' & Hlen).
      exists d', u'. repeat split; try done. rewrite Hlen. lia.
    + match goal with
      | |- context [Stored ?d1] =>
          edestruct (IH (Stored d1) d1)
            as (d' & u' & Hl & Hu' & HM' & Hlen)
      end.
      { reflexivity. }
      { cbn [users]. apply lookup_insert_eq. }
      { reflexivity. }
      exists d', u'. repeat split; try done. rewrite Hlen.
      cbn [keys]. rewrite length_app. simpl. lia.
Qed.

Lemma X8_requests_under_manual_limit_witness :
  exists d' u',
    load_data (handle_all cfg1 (requests_of user7 seven_requests)
                          (Stored store_7_manual_8)) = Done d'
    /\ users d' !! 7 = Some u'
    /\ manual_limit u' = Some 8
    /\ Z.of_nat (length (keys u')) = 8.
Proof.
  apply (X8_requests_under_manual_limit cfg1 user7 8 seven_requests
           (Stored store_7_manual_8) store_7_manual_8
           (mkUser (Some "seven") (Some 8) 2
              [key_of_draw draw_a; key_of_draw draw_b])).
  - reflexivity.
  - vm_compute. reflexivity.
  - reflexivity.
Defined.

(** ** What no request undoes *)

Lemma record_grows_refl u : record_grows u u.
Proof. split; [reflexivity|auto]. Qed.

Lemma record_grows_same_keys u u' :
  keys u' = keys u ->
  (is_Some (manual_limit u) -> is_Some (manual_limit u')) ->
  record_grows u u'.
Proof. intros Hk Hm. split; [now rewrite Hk|exact Hm]. Qed.

Lemma store_grows_refl d : store_grows d d.
Proof. intros uid u Hu. exists u. split; [done|apply record_grows_refl]. Qed.

Lemma store_grows_trans d1 d2 d3 :
  store_grows d1 d2 -> store_grows d2 d3 -> store_grows d1 d3.
Proof.
  intros H12 H23 uid u Hu.
  destruct (H12 _ _ Hu) as (u2 & Hu2 & [Hk2 Hm2]).
  destruct (H23 _ _ Hu2) as (u3 & Hu3 & [Hk3 Hm3]).
  exists u3. split; [done|]. split; [by etrans|auto].
Qed.

Lemma store_grows_same_users d p : store_grows d (mkData (users d) p).
Proof. intros uid u Hu. exists u. split; [done|apply record_grows_refl]. Qed.

Lemma store_grows_insert d uid u' p :
  (forall u, users d !! uid = Some u -> record_grows u u') ->
  store_grows d (mkData (<[uid := u']> (users d)) p).
Proof.
  intros Hgrow uid0 u0 Hu0. simpl. destruct (decide (uid0 = uid)) as [->|Hne].
  - exists u'. rewrite lookup_insert_eq. split; [done|]. now apply Hgrow.
  - exists u0. rewrite lookup_insert_ne by done.
    split; [done|apply record_grows_refl].
Qed.

Lemma between_stores_refl f : between_stores store_grows f f.
Proof. intros d Hd. exists d. split; [done|apply store_grows_refl]. Qed.

Lemma between_stores_trans f1 f2 f3 :
  between_stores store_grows f1 f2 -> between_stores store_grows f2 f3 ->
  between_stores store_grows f1 f3.
Proof.
  intros H12 H23 d1 Hd1.
  destruct (H12 _ Hd1) as (d2 & Hd2 & Hg12).
  destruct (H23 _ Hd2) as (d3 & Hd3 & Hg23).
  exists d3. split; [done|]. by eapply store_grows_trans.
Qed.

Lemma between_stores_saved f d d' :
  load_data f = Done d -> store_grows d d' ->
  between_stores store_grows f (Stored d').
Proof.
  intros Hload Hgrow d0 Hd0. exists d'. split; [reflexivity|].
  rewrite Hload in Hd0. now injection Hd0 as <-.
Qed.

Section Growth.
Context (cfg : Config).

Lemma handle_grows r f : between_stores store_grows f (handle cfg r f).
Proof.
  destruct (load_data f) as [d|e] eqn:Hload.
  2:{ intros d Hd. congruence. }
  destruct r as [m|o m w|m now|from cb|m now now'|o sent c]; simpl.
  - unfold start_cmd. rewrite Hload. simpl.
    apply (between_stores_saved _ _ _ Hload). rewrite ensure_user_eq.
    apply store_grows_insert. intros u Hu. unfold ensured. rewrite Hu.
    now apply record_grows_same_keys.
  - rewrite (get_key_handler_eq _ _ _ _ _ _ Hload). cbn zeta.
    case_bool_decide; [apply between_stores_refl|]. cbn [snd].
    apply (between_stores_saved _ _ _ Hload), store_grows_insert.
    intros u Hu. unfold ensured. rewrite Hu. split; simpl; [|done].
    now apply prefix_app_r.
  - rewrite my_keys_handler_unchanged. apply between_stores_refl.
  - unfold set_limit_callback.
    destruct (negb _); [apply between_stores_refl|].
    destruct (split "_" cb) as [|? [|target [|lim [|? ?]]]];
      try apply between_stores_refl.
    destruct (int lim) as [new_limit|]; [|apply between_stores_refl].
    rewrite Hload.
    destruct (uid_of_key target) as [uid|]; [|apply between_stores_refl].
    destruct (users d !! uid) as [u|] eqn:Hu; [|apply between_stores_refl].
    apply (between_stores_saved _ _ _ Hload), store_grows_insert.
    intros u0 Hu0. assert (u0 = u) as -> by congruence.
    apply record_grows_same_keys; simpl; eauto.
  - unfold buy_key_handler. rewrite Hload.
    apply (between_stores_saved _ _ _ Hload), store_grows_same_users.
  - unfold finalize_payment. rewrite Hload.
    destruct (pending d !! c) as [info|]; [|apply between_stores_refl].
    destruct (users d !! user_id info) as [u|] eqn:Hu;
      [|apply between_stores_refl].
    apply (between_stores_saved _ _ _ Hload), store_grows_insert.
    intros u0 Hu0. assert (u0 = u) as -> by congruence.
    apply record_grows_same_keys; simpl; eauto.
Qed.

Lemma handle_all_grows rs : forall f,
  between_stores store_grows f (handle_all cfg rs f).
Proof.
  induction rs as [|r rs IH]; intros f; [apply between_stores_refl|].
  simpl. eapply between_stores_trans; [apply handle_grows|apply IH].
Qed.

Lemma get_key_handler_split o m w f :
  get_key_handler cfg o m w f
  = match load_data f with
    | Done data => get_key_resumed cfg o m w data f
    | Raised e => (Raised e, f)
    end.
Proof. unfold get_key_handler. now destruct (load_data f). Qed.

Lemma finalize_payment_split o sent c f :
  finalize_payment cfg o sent c f
  = match load_data f with
    | Done data => finalize_resumed cfg o sent c data f
    | Raised e => (Raised e, f)
    end.
Proof. unfold finalize_payment. now destruct (load_data f). Qed.

(** A handler that is resumed before any other event has done what the
    handler does in one piece. *)
Lemma step_one_after_another r f :
  step cfg (Resume 0) (step cfg (Arrive 0 r) (f, ∅)) = (handle cfg r f, ∅).
Proof.
  destruct r as [m|o m w|m now|from cb|m now now'|o sent c]; try reflexivity.
  - cbn [step handle]. rewrite get_key_handler_split.
    destruct (load_data f) as [data|e]; [|reflexivity].
    cbn [step]. rewrite lookup_insert_eq.
    now rewrite delete_insert_id by apply lookup_empty.
  - cbn [step handle]. rewrite finalize_payment_split.
    destruct (load_data f) as [data|e]; [|reflexivity].
    cbn [step]. rewrite lookup_insert_eq.
    now rewrite delete_insert_id by apply lookup_empty.
Qed.

Lemma run_one_after_another rs : forall f,
  run_events cfg (one_after_another rs) (f, ∅) = (handle_all cfg rs f, ∅).
Proof.
  induction rs as [|r rs IH]; intros f; [reflexivity|].
  cbn [one_after_another run_events foldl].
  rewrite step_one_after_another. apply IH.
Qed.

(** X9. When the requests are handled one after another, each handler
    running to its end before the next one starts, no request undoes what
    the store holds: after any sequence of requests every user registered
    before is registered still, with the keys held before, unaltered and
    in the same order, at the head of the list of keys, and with a manual
    limit if there was one (the tracking never returns from manual to
    automatic).  Handlers that overlap do not keep this: see
    [overlapping_handlers_lose_a_registration]. *)
Theorem X9_users_keys_manual_limits_stay rs f :
  between_stores store_grows f
    (run_events cfg (one_after_another rs) (f, ∅)).1.
Proof. rewrite run_one_after_another. apply handle_all_grows. Qed.

End Growth.

(** A request for a key that awaits the membership check while another
    user registers saves the snapshot it had loaded, with its key, over
    the registration. *)
Lemma overlapping_handlers_lose_a_registration :
  let before :=
    run_events cfg1 [Arrive 1 (GetKey o_member user7 draw_a);
                     Arrive 2 (Start user8)] (Missing, ∅) in
  let after := step cfg1 (Resume 1) before in
  (exists d, before.1 = Stored d /\ is_Some (users d !! 8))
  /\ (exists d, after.1 = Stored d /\ users d !! 8 = None
               /\ is_Some (users d !! 7)).
Proof.
  split; eexists; (split; [vm_compute; reflexivity|]).
  - vm_compute. eauto.
  - split; vm_compute; eauto.
Qed.

(** ** Bounds that every request keeps *)

Lemma on_store_saved P d : P d -> on_store P (Stored d).
Proof. intros H. exact H. Qed.

Lemma on_store_insert (P : Z -> UserRecord -> Prop) d uid u' p :
  map_Forall P (users d) -> P uid u' ->
  map_Forall P (users (mkData (<[uid := u']> (users d)) p)).
Proof. intros Hd Hu. simpl. now apply map_Forall_insert_2. Qed.

(** A handler that cannot read the file leaves it alone. *)
Lemma handle_unreadable cfg r f e :
  load_data f = Raised e -> handle cfg r f = f.
Proof.
  intros Hload.
  destruct r as [m|o m w|m now|from cb|m now now'|o sent c]; simpl.
  - unfold start_cmd. now rewrite Hload.
  - unfold get_key_handler. now rewrite Hload.
  - apply my_keys_handler_unchanged.
  - unfold set_limit_callback. destruct (negb _); [done|].
    destruct (split "_" cb) as [|? [|? [|lim [|? ?]]]]; try done.
    destruct (int lim); [|done]. now rewrite Hload.
  - unfold buy_key_handler. now rewrite Hload.
  - unfold finalize_payment. now rewrite Hload.
Qed.

Section Bounds.
Context (cfg : Config).

Lemma handle_auto_users_bounded r f :
  on_store auto_users_bounded f -> on_store auto_users_bounded (handle cfg r f).
Proof.
  intros Hinv.
  destruct (load_data f) as [d|e] eqn:Hload.
  2:{ now rewrite (handle_unreadable _ _ _ _ Hload). }
  pose proof (on_store_loaded _ _ _ Hload Hinv) as Hd.
  destruct r as [m|o m w|m now|from cb|m now now'|o sent c]; simpl.
  - unfold start_cmd. rewrite Hload. apply on_store_saved.
    apply ensure_user_Forall; [simpl; intros _; unfold max_auto_limit,
      KEYS_PER_CHAT; lia|auto|done].
  - rewrite (get_key_handler_eq _ _ _ _ _ _ Hload). cbn zeta.
    case_bool_decide as Hle; [done|]. cbn [snd].
    apply on_store_saved, on_store_insert; [done|]. simpl. intros Hm.
    pose proof (calculate_limit_auto_le cfg o (from_id m) (ensured m d)) as Hmax.
    specialize (Hmax Hm). rewrite length_app. simpl. lia.
  - now rewrite my_keys_handler_unchanged.
  - unfold set_limit_callback. destruct (negb _); [done|].
    destruct (split "_" cb) as [|? [|target [|lim [|? ?]]]]; try done.
    destruct (int lim) as [new_limit|]; [|done]. rewrite Hload.
    destruct (uid_of_key target) as [uid|]; [|done].
    destruct (users d !! uid) as [u|]; [|done].
    now apply on_store_saved, on_store_insert.
  - unfold buy_key_handler. rewrite Hload. now apply on_store_saved.
  - unfold finalize_payment. rewrite Hload.
    destruct (pending d !! c) as [info|]; [|done].
    destruct (users d !! user_id info) as [u|]; [|done].
    now apply on_store_saved, on_store_insert.
Qed.

(** X10. A user under the automatic limit never holds more than 6 keys
    (both reference chats counted), whatever the sequence of requests and
    however the membership answers change between them: from a store in
    which this is so (the empty store for one), it is so after every
    sequence of requests. *)
Theorem X10_automatic_users_hold_at_most_six rs : forall f,
  on_store auto_users_bounded f ->
  on_store auto_users_bounded (handle_all cfg rs f).
Proof.
  induction rs as [|r rs IH]; intros f Hinv; [exact Hinv|].
  simpl. apply IH. now apply handle_auto_users_bounded.
Qed.

End Bounds.

Lemma X10_automatic_users_hold_at_most_six_witness :
  on_store auto_users_bounded
    (handle_all cfg2
       [GetKey o_member user7 draw_a; GetKey o_member user7 draw_b;
        GetKey o_left user7 draw_c; GetKey o_member user8 draw_d;
        BuyKey user7 1700000000000000 1700000000000005]
       Missing).
Proof.
  apply (X10_automatic_users_hold_at_most_six cfg2).
  unfold on_store, auto_users_bounded. simpl. apply map_Forall_empty.
Defined.

(** ** Files that are not snapshots *)

(** X11. A file whose bytes are not UTF-8 is never overwritten: every
    request leaves it as it is, and so does every sequence of requests. *)
Theorem X11_undecodable_file_is_left_alone cfg rs content raised :
  utf8_valid content = false ->
  handle_all cfg rs (Garbled content raised) = Garbled content raised.
Proof.
  intros Hbad. induction rs as [|r rs IH]; [reflexivity|].
  simpl. rewrite (handle_unreadable cfg r _ UnicodeDecodeError); [exact IH|].
  now apply load_data_not_utf8.
Qed.

Lemma X11_undecodable_file_is_left_alone_witness :
  handle_all cfg1
    [Start user7; GetKey o_member user7 draw_a;
     BuyKey user7 1700000000000000 1700000000000005]
    (Garbled [x7b; xff; x7d]%byte JSONDecodeError)
  = Garbled [x7b; xff; x7d]%byte JSONDecodeError.
Proof.
  apply (X11_undecodable_file_is_left_alone cfg1). reflexivity.
Defined.

Lemma handle_on_empty cfg r f :
  load_data f = Done empty_snapshot ->
  handle cfg r f
  = match handle cfg r Missing with
    | Missing => f
    | f' => f'
    end.
Proof.
  intros Hload.
  destruct r as [m|o m w|m now|from cb|m now now'|o sent c]; simpl.
  - unfold start_cmd. now rewrite Hload.
  - rewrite (get_key_handler_eq _ _ _ _ _ _ Hload),
      (get_key_handler_eq _ _ _ _ Missing _ eq_refl).
    cbn zeta. now case_bool_decide.
  - now rewrite !my_keys_handler_unchanged.
  - unfold set_limit_callback. destruct (negb _); [done|].
    destruct (split "_" cb) as [|? [|target [|lim [|? ?]]]]; try done.
    destruct (int lim); [|done]. rewrite Hload. simpl.
    now destruct (uid_of_key target).
  - unfold buy_key_handler. now rewrite Hload.
  - unfold finalize_payment. now rewrite Hload.
Qed.

(** X12. A file whose text makes [json.load] raise [JSONDecodeError]
    counts as an empty store, and is lost at the first request that saves:
    each request leaves it as it is when the same request leaves a missing
    file missing, and else replaces it by what the request would write
    from a missing file.  A file on whose text the parser raises another
    exception (one that [load_data] does not catch) is left as it is by
    every sequence of requests. *)
Theorem X12_text_that_is_not_json_is_replaced cfg content :
  utf8_valid content = true ->
  (forall r,
     handle cfg r (Garbled content JSONDecodeError)
     = match handle cfg r Missing with
       | Missing => Garbled content JSONDecodeError
       | f' => f'
       end)
  /\ (forall raised rs,
        raised ≠ JSONDecodeError -> raised ≠ FileNotFoundError ->
        handle_all cfg rs (Garbled content raised) = Garbled content raised).
Proof.
  intros Htext. split.
  - intros r. apply handle_on_empty. now apply load_data_not_json.
  - intros raised rs Hj Hf. induction rs as [|r rs IH]; [reflexivity|].
    simpl. rewrite (handle_unreadable cfg r _ raised); [exact IH|].
    now apply load_data_parser_raises.
Qed.

Lemma X12_text_that_is_not_json_is_replaced_witness :
  handle cfg1 (Start user8) (Garbled [x7b; x22]%byte JSONDecodeError)
  = Stored (mkData {[ 8 := mkUser None None 0 [] ]} ∅)
  /\ handle_all cfg1 [Start user8; GetKey o_member user8 draw_a]
       (Garbled [x5b; x5b; x5b]%byte RecursionError)
     = Garbled [x5b; x5b; x5b]%byte RecursionError.
Proof.
  destruct (X12_text_that_is_not_json_is_replaced cfg1 [x7b; x22]%byte
              eq_refl) as [Hreplaced _].
  destruct (X12_text_that_is_not_json_is_replaced cfg1 [x5b; x5b; x5b]%byte
              eq_refl) as [_ Hleft].
  split; [apply (Hreplaced (Start user8))|].
  apply Hleft; discriminate.
Defined.

(** ** The pending payments *)

Section Pending.
Context (cfg : Config).

Lemma handle_pending_well_formed r f :
  on_store pending_well_formed f ->
  on_store pending_well_formed (handle cfg r f).
Proof.
  intros Hinv.
  destruct (load_data f) as [d|e] eqn:Hload.
  2:{ now rewrite (handle_unreadable _ _ _ _ Hload). }
  pose proof (on_store_loaded _ _ _ Hload Hinv) as Hd.
  destruct r as [m|o m w|m now|from cb|m now now'|o sent c]; simpl.
  - unfold start_cmd. rewrite Hload. apply on_store_saved.
    unfold pending_well_formed. now rewrite ensure_user_pending.
  - rewrite (get_key_handler_eq _ _ _ _ _ _ Hload). cbn zeta.
    now case_bool_decide.
  - now rewrite my_keys_handler_unchanged.
  - unfold set_limit_callback. destruct (negb _); [done|].
    destruct (split "_" cb) as [|? [|target [|lim [|? ?]]]]; try done.
    destruct (int lim) as [new_limit|]; [|done]. rewrite Hload.
    destruct (uid_of_key target) as [uid|]; [|done].
    now destruct (users d !! uid).
  - unfold buy_key_handler. rewrite Hload. apply on_store_saved.
    unfold pending_well_formed. simpl.
    apply map_Forall_insert_2; [|done]. simpl. eauto.
  - unfold finalize_payment. rewrite Hload.
    destruct (pending d !! c) as [info|]; [|done].
    destruct (users d !! user_id info) as [u|]; [|done].
    apply on_store_saved. unfold pending_well_formed. simpl.
    now apply map_Forall_delete.
Qed.

(** X13. Every pending payment waits: from a store in which each
    pending payment has the status [waiting], the amount of 0.5 TON and a
    reference made of [pay_], the id of its payer and a second of the
    clock (the empty store for one), this is so after every sequence of
    requests.  A reconciled payment is removed, never marked. *)
Theorem X13_pending_payments_wait rs : forall f,
  on_store pending_well_formed f ->
  on_store pending_well_formed (handle_all cfg rs f).
Proof.
  induction rs as [|r rs IH]; intros f Hinv; [exact Hinv|].
  simpl. apply IH. now apply handle_pending_well_formed.
Qed.

End Pending.

Lemma X13_pending_payments_wait_witness :
  on_store pending_well_formed
    (handle_all cfg1
       [Start user7; BuyKey user7 1700000000000000 1700000000000005;
        BuyKey user8 1700000000000000 1700000000000007;
        FinalizePayment o_left (Done ()) "pay_7_1700000000"]
       Missing).
Proof.
  apply (X13_pending_payments_wait cfg1).
  unfold on_store, pending_well_formed. simpl. apply map_Forall_empty.
Defined.

(** ** What the dispatcher can bring about *)

Lemma check_payment_manual_unchanged cfg o sent cb f :
  check_payment_manual cfg o sent cb f = (Done NotPaidYet, f).
Proof. reflexivity. Qed.

Lemma dispatch_callback_unchanged cfg o sent from cb f :
  dispatch cfg (OnCallback o sent from cb) f = f.
Proof.
  simpl. destruct (String.prefix "help_" cb); [done|].
  destruct (routed_to_set_limit cb) eqn:Hrouted.
  - now apply set_limit_callback_routed_never_saves.
  - now destruct (String.prefix "check_pay_" cb).
Qed.

Lemma dispatch_all_automatic cfg upd f :
  on_store all_automatic f -> on_store all_automatic (dispatch cfg upd f).
Proof.
  intros Hinv.
  destruct upd as [m|o m w|m now|m now now'|o sent from cb].
  5:{ now rewrite dispatch_callback_unchanged. }
  all: simpl.
  - unfold start_cmd. on_loaded d Hload.
    apply (on_store_loaded _ _ _ Hload) in Hinv.
    apply on_store_saved. now apply ensure_user_Forall.
  - destruct (load_data f) as [d|e] eqn:Hload;
      [|unfold get_key_handler; now rewrite Hload].
    pose proof (on_store_loaded _ _ _ Hload Hinv) as Hd.
    rewrite (get_key_handler_eq _ _ _ _ _ _ Hload). cbn zeta.
    case_bool_decide; [done|]. cbn [snd].
    apply on_store_saved, on_store_insert; [done|]. simpl.
    unfold ensured. destruct (users d !! from_id m) as [u|] eqn:Hu; [|done].
    exact (Hd _ _ Hu).
  - now rewrite my_keys_handler_unchanged.
  - unfold buy_key_handler. on_loaded d Hload.
    exact (on_store_loaded _ _ _ Hload Hinv).
Qed.

(** X14. As the code stands, no callback query changes the file (a
    set-limit callback fails at the unpacking or names no user, and the
    payment check never finds a payment paid), so that nothing the
    dispatcher delivers sets a manual limit: from a store without manual
    limits (the empty store for one), every user is under the automatic
    limit after every sequence of updates. *)
Theorem X14_no_update_sets_a_manual_limit cfg :
  (forall o sent from cb f, dispatch cfg (OnCallback o sent from cb) f = f)
  /\ (forall upds f,
        on_store all_automatic f ->
        on_store all_automatic (dispatch_all cfg upds f)).
Proof.
  split; [apply dispatch_callback_unchanged|].
  intros upds. induction upds as [|upd upds IH]; intros f Hinv; [exact Hinv|].
  simpl. apply IH. now apply dispatch_all_automatic.
Qed.

Lemma X14_no_update_sets_a_manual_limit_witness :
  dispatch cfg1 (OnCallback o_member (Done ()) 1 "set_lim_7_8")
           (Stored store_7_buying) = Stored store_7_buying
  /\ on_store all_automatic
       (dispatch_all cfg1
          [OnStart user7; OnBuyKey user7 1700000000000000 1700000000000005;
           OnCallback o_member (Done ()) 7 "check_pay_pay_7_1700000000";
           OnCallback o_member (Done ()) 1 "set_lim_7_100";
           OnGetKey o_member user7 draw_a]
          Missing).
Proof.
  destruct (X14_no_update_sets_a_manual_limit cfg1) as [Hcallback Hall].
  split; [apply Hcallback|].
  apply Hall. unfold on_store, all_automatic. simpl. apply map_Forall_empty.
Defined.

(** ** Listing the keys *)

Lemma my_keys_handler_eq m now f d :
  load_data f = Done d ->
  my_keys_handler m now f =
  (Done (map (fun k => (k, bool_decide (now < valid_until k)))
             (keys (ensured m d))), f).
Proof.
  intros Hload. unfold my_keys_handler. rewrite Hload, ensure_user_eq.
  cbn [users]. now rewrite lookup_insert_eq.
Qed.

(** X15. The listing shows every key of the sender once, in the order of
    issuance, each marked valid exactly when it expires after the time of
    the listing (a key that expires at that very time is shown expired);
    a sender without a record is shown no key; and nothing is saved, not
    even the registration or the username of the sender. *)
Theorem X15_listing_shows_every_key m now f d :
  load_data f = Done d ->
  exists listing,
    my_keys_handler m now f = (Done listing, f)
    /\ listing.*1 = match users d !! from_id m with
                    | Some u => keys u
                    | None => []
                    end
    /\ Forall (fun kb => kb.2 = true <-> now < valid_until kb.1) listing.
Proof.
  intros Hload. eexists. split; [exact (my_keys_handler_eq _ _ _ _ Hload)|].
  split.
  - rewrite <- list_fmap_compose.
    unfold ensured. destruct (users d !! from_id m); simpl;
      [apply list_fmap_id|done].
  - apply Forall_fmap, Forall_forall. intros k _. simpl.
    apply bool_decide_eq_true.
Qed.

Lemma X15_listing_shows_every_key_witness :
  exists listing,
    my_keys_handler user7 1702592000000000 (Stored store_7_manual_8)
      = (Done listing, Stored store_7_manual_8)
    /\ listing.*1 = [key_of_draw draw_a; key_of_draw draw_b]
    /\ Forall (fun kb => kb.2 = true <-> 1702592000000000 < valid_until kb.1)
              listing.
Proof.
  apply (X15_listing_shows_every_key user7 1702592000000000
           (Stored store_7_manual_8) store_7_manual_8).
  reflexivity.
Defined.

(** X16. A key that was granted is the last of the listing from then on,
    and is shown valid exactly until the expiry stored with it: 30 days
    after the clock was read for it, shifted by the change of the UTC
    offset in between. *)
Theorem X16_granted_key_is_listed_last cfg o m w f k e p l f' m' now :
  get_key_handler cfg o m w f = (Done (Issued k e p l), f') ->
  from_id m' = from_id m ->
  exists earlier,
    my_keys_handler m' now f'
    = (Done (earlier ++
             [(key_of_draw w,
               bool_decide (now < now_expiry w + thirty_days + zone_shift w))]),
       f').
Proof.
  intros Hissued Hsame.
  apply get_key_handler_issued in Hissued
    as (-> & d' & u & ks & -> & Hu & Hkeys).
  rewrite (my_keys_handler_eq m' now (Stored d') d' eq_refl).
  unfold ensured. rewrite Hsame, Hu. cbn [keys]. rewrite Hkeys, map_app.
  eexists. reflexivity.
Qed.

Lemma X16_granted_key_is_listed_last_witness :
  exists earlier,
    my_keys_handler user7 1732493800000000
      (get_key_handler cfg1 o_member user7 draw_dst (Stored store_7_one_key)).2
    = (Done (earlier ++ [(key_of_draw draw_dst, true)]),
       (get_key_handler cfg1 o_member user7 draw_dst
                        (Stored store_7_one_key)).2).
Proof.
  apply (X16_granted_key_is_listed_last cfg1 o_member user7 draw_dst
           (Stored store_7_one_key) "KVN-12345678" 1732495600000000 2 3
           _ user7 1732493800000000).
  - vm_compute. reflexivity.
  - reflexivity.
Defined.

(** ** A purchase and its reconciliation *)

(** X17. A purchase by a registered user under a reference that is not
    pending, followed by the reconciliation of the reference answered,
    leaves the pending payments as they were before the purchase and the
    payer with a manual limit one above the limit held (the manual limit,
    or else the calculated one); nothing else of the store changes, and
    from then on the limit is that number whatever the membership
    answers. *)
Theorem X17_purchase_then_reconciliation cfg o o' m now now' f d u :
  load_data f = Done d ->
  users d !! from_id m = Some u ->
  pending d !! payment_comment (from_id m) now = None ->
  let base := run o (calculate_limit cfg (from_id m) u) in
  let u' := mkUser (username u) (Some (base + 1)) (keys_used u) (keys u) in
  let bought := buy_key_handler cfg m now now' f in
  exists link,
    bought.1 = Done (link, payment_comment (from_id m) now)
    /\ finalize_payment cfg o (Done ()) (payment_comment (from_id m) now)
                        bought.2
       = (Done (Some (from_id m, base + 1)),
          Stored (mkData (<[from_id m := u']> (users d)) (pending d)))
    /\ run o' (calculate_limit cfg (from_id m) u') = base + 1.
Proof.
  intros Hload Hu Hfresh base u' bought.
  destruct (buy_key_handler_saves cfg m now now' f d Hload) as [link Hbuy].
  exists link. subst bought. rewrite Hbuy. split; [reflexivity|].
  split; [|reflexivity].
  unfold finalize_payment. cbn [snd load_data file_exists negb json_load
                                 users pending].
  rewrite lookup_insert_eq. cbn [user_id]. rewrite Hu.
  rewrite baseline_is_calculated, delete_insert_id by done. reflexivity.
Qed.

Lemma X17_purchase_then_reconciliation_witness :
  exists link,
    (buy_key_handler cfg1 user7 1700000000000000 1700000000000005
                     (Stored store_7_one_key)).1
    = Done (link, payment_comment 7 1700000000000000)
    /\ finalize_payment cfg1 o_member (Done ())
         (payment_comment 7 1700000000000000)
         (buy_key_handler cfg1 user7 1700000000000000 1700000000000005
                          (Stored store_7_one_key)).2
       = (Done (Some (7, 3 + 1)),
          Stored (mkData
                    (<[7 := mkUser (Some "seven") (Some (3 + 1)) 1
                              [mkKey "AABBCC" "KVN-00112233"
                                     1702592000000000 1700000000000010]]>
                       (users store_7_one_key))
                    (pending store_7_one_key)))
    /\ run o_left
         (calculate_limit cfg1 7
            (mkUser (Some "seven") (Some (3 + 1)) 1
               [mkKey "AABBCC" "KVN-00112233"
                      1702592000000000 1700000000000010]))
       = 3 + 1.
Proof.
  apply (X17_purchase_then_reconciliation cfg1 o_member o_left user7
           1700000000000000 1700000000000005
           (Stored store_7_one_key) store_7_one_key
           (mkUser (Some "seven") None 1
              [mkKey "AABBCC" "KVN-00112233"
                     1702592000000000 1700000000000010])).
  - reflexivity.
  - vm_compute. reflexivity.
  - vm_compute. reflexivity.
Defined.

(** ** Ids as text *)

Lemma digit_of_pretty_N_char d :
  (d < 10)%N -> digit_of (pretty_N_char d) = Some (Z.of_N d).
Proof.
  intros Hd. destruct d as [|p]; [reflexivity|].
  do 5 (try (destruct p as [p|p|]; try reflexivity; try lia)).
Qed.

(** Reading the digits that [pretty_N_go] wrote. *)
Lemma digits_value_pretty_N_go x :
  exists scale, forall acc s,
    digits_value acc (pretty_N_go x s)
    = digits_value (acc * scale + Z.of_N x) s.
Proof.
  induction (N.lt_wf_0 x) as [x _ IH].
  assert (x = 0 \/ 0 < x)%N as [->|Hpos] by lia.
  - exists 1. intros acc s. rewrite pretty_N_go_0. f_equal. lia.
  - destruct (IH (x `div` 10)%N) as [scale Hscale]; [apply N.div_lt; lia|].
    exists (10 * scale). intros acc s.
    rewrite pretty_N_go_step, Hscale by done. simpl.
    rewrite digit_of_pretty_N_char by (apply N.mod_lt; lia).
    f_equal. pose proof (N.div_mod x 10 ltac:(lia)). lia.
Qed.

Lemma pretty_N_go_has_char c x : forall s,
  (forall d, pretty_N_char d ≠ c) ->
  has_char c (pretty_N_go x s) = has_char c s.
Proof.
  induction (N.lt_wf_0 x) as [x _ IH]; intros s Hc.
  assert (x = 0 \/ 0 < x)%N as [->|Hpos] by lia.
  - now rewrite pretty_N_go_0.
  - rewrite pretty_N_go_step by done.
    rewrite IH by (done || apply N.div_lt; lia). simpl.
    destruct (Ascii.eqb_spec (pretty_N_char (x `mod` 10)%N) c) as [Heq|];
      [now destruct (Hc _ Heq)|reflexivity].
Qed.

Lemma all_chars_pretty_N_go p x : forall s,
  (forall d, p (pretty_N_char d) = true) ->
  all_chars p (pretty_N_go x s) = all_chars p s.
Proof.
  induction (N.lt_wf_0 x) as [x _ IH]; intros s Hp.
  assert (x = 0 \/ 0 < x)%N as [->|Hpos] by lia.
  - now rewrite pretty_N_go_0.
  - rewrite pretty_N_go_step by done.
    rewrite IH by (done || apply N.div_lt; lia). simpl. now rewrite Hp.
Qed.

Lemma is_digit_pretty_N_char d : is_digit (pretty_N_char d) = true.
Proof. unfold pretty_N_char. repeat case_match; reflexivity. Qed.

Lemma is_digit_not_blank c : is_digit c = true -> is_blank c = false.
Proof.
  unfold is_digit, digit_of, is_blank.
  destruct (48 <=? N_of_ascii c)%N eqn:Hlo; [|discriminate].
  apply N.leb_le in Hlo. intros _.
  apply orb_false_iff. split.
  - apply andb_false_iff. right. apply N.leb_gt. lia.
  - apply N.eqb_neq. lia.
Qed.

Lemma is_digit_not_underscore c : is_digit c = true -> Ascii.eqb c "_" = false.
Proof.
  intros Hc. destruct (Ascii.eqb_spec c "_") as [->|]; [discriminate|done].
Qed.

Lemma rstrip_without_blanks s :
  all_chars (fun c => negb (is_blank c)) s = true -> rstrip s = s.
Proof.
  induction s as [|c r IH]; [done|]. cbn [all_chars rstrip].
  intros H. apply andb_true_iff in H as [Hc Hr]. rewrite (IH Hr).
  apply negb_true_iff in Hc. rewrite Hc. now destruct r.
Qed.

Lemma all_chars_impl (p q : ascii -> bool) s :
  (forall c, p c = true -> q c = true) ->
  all_chars p s = true -> all_chars q s = true.
Proof.
  intros Hpq. induction s as [|c r IH]; [done|]. simpl.
  intros H. apply andb_true_iff in H as [Hc Hr].
  now rewrite (Hpq _ Hc), (IH Hr).
Qed.

Lemma number_value_of_digits s : forall acc after_digit,
  all_chars is_digit s = true ->
  after_digit = true \/ s ≠ "" ->
  number_value acc after_digit s = digits_value acc s.
Proof.
  induction s as [|c r IH]; intros acc after_digit Hall Hne.
  - destruct Hne as [->|]; done.
  - cbn [all_chars] in Hall. apply andb_true_iff in Hall as [Hc Hr].
    cbn [number_value digits_value].
    rewrite (is_digit_not_underscore _ Hc).
    unfold is_digit in Hc. destruct (digit_of c); [|discriminate].
    apply IH; auto.
Qed.

(** [int] on digits reads them. *)
Lemma int_of_digits c r :
  all_chars is_digit (String c r) = true ->
  int (String c r) = digits_value 0 (String c r).
Proof.
  intros Hall. unfold int, strip.
  pose proof Hall as Hc. cbn [all_chars] in Hc.
  apply andb_true_iff in Hc as [Hc _].
  cbn [lstrip]. rewrite (is_digit_not_blank _ Hc).
  rewrite rstrip_without_blanks
    by (revert Hall; apply all_chars_impl; intros x Hx;
        now rewrite (is_digit_not_blank _ Hx)).
  rewrite <- (number_value_of_digits (String c r) 0 false Hall) by now right.
  destruct c as [[] [] [] [] [] [] [] []]; try reflexivity; discriminate.
Qed.

(** [int] on a minus sign before digits reads the opposite number. *)
Lemma int_of_minus_digits c r :
  all_chars is_digit (String c r) = true ->
  int (String "-" (String c r)) = Z.opp <$> digits_value 0 (String c r).
Proof.
  intros Hall. unfold int, strip. cbn [lstrip]. change (is_blank "-") with false.
  cbv iota.
  assert (all_chars (fun x => negb (is_blank x)) (String "-" (String c r)) = true)
    as Hnb.
  { change (all_chars (fun x => negb (is_blank x)) (String c r) = true).
    revert Hall. apply all_chars_impl. intros x Hx.
    now rewrite (is_digit_not_blank _ Hx). }
  rewrite (rstrip_without_blanks _ Hnb).
  now rewrite (number_value_of_digits (String c r) 0 false Hall) by now right.
Qed.

Lemma pretty_pos_digits p :
  exists c r, pretty_N_go (N.pos p) "" = String c r
    /\ all_chars is_digit (String c r) = true
    /\ digits_value 0 (String c r) = Some (Z.pos p).
Proof.
  destruct (digits_value_pretty_N_go (N.pos p)) as [scale Hscale].
  specialize (Hscale 0 ""). simpl in Hscale.
  pose proof (all_chars_pretty_N_go is_digit (N.pos p) ""
                is_digit_pretty_N_char) as Hall.
  destruct (pretty_N_go (N.pos p) "") as [|c r] eqn:Hs; [discriminate|].
  exists c, r. auto.
Qed.

Lemma int_str n : int (str n) = Some n.
Proof.
  unfold str, pretty, pretty_Z. destruct n as [|p|p]; [reflexivity| |].
  - unfold pretty, pretty_positive, pretty, pretty_N. case_decide; [done|].
    destruct (pretty_pos_digits p) as (c & r & -> & Hall & Hval).
    now rewrite int_of_digits.
  - unfold pretty, pretty_positive, pretty, pretty_N. case_decide; [done|].
    destruct (pretty_pos_digits p) as (c & r & -> & Hall & Hval).
    change ("-" +:+ String c r) with (String "-" (String c r)).
    rewrite int_of_minus_digits by done. now rewrite Hval.
Qed.

Lemma uid_of_key_str n : uid_of_key (str n) = Some n.
Proof. unfold uid_of_key. rewrite int_str. now rewrite String.eqb_refl. Qed.

(** X18. An id written with [str], as the key of a user and as the payer
    of a pending payment, reads back with [int] as the same id, negative
    ids included, and the text is recognised as the dictionary key of
    that id. *)
Theorem X18_id_text_round_trip n :
  int (str n) = Some n /\ uid_of_key (str n) = Some n.
Proof. split; [apply int_str|apply uid_of_key_str]. Qed.

(** ** The body of the admin override *)

Lemma split_without_sep sep s : has_char sep s = false -> split sep s = [s].
Proof.
  induction s as [|c s IH]; simpl; [done|].
  intros H. apply orb_false_iff in H as [Hc Hs].
  rewrite Hc, (IH Hs). reflexivity.
Qed.

Lemma split_app_sep sep a b :
  has_char sep a = false ->
  split sep (a +:+ String sep b) = a :: split sep b.
Proof.
  induction a as [|c a IH]; simpl.
  - intros _. now rewrite Ascii.eqb_refl.
  - intros H. apply orb_false_iff in H as [Hc Ha].
    rewrite Hc, (IH Ha). reflexivity.
Qed.

(** X19. On data of exactly three fields, [<word>_<id>_<limit>], the
    handler does for an admin what it is written for: when the id is that
    of a registered user, the user's [manual_limit] becomes the limit read
    (whatever it was, and whatever the number), the rest of the record,
    the other users and the pending payments are kept, and the snapshot is
    saved; when the id is of no user, nothing is saved. *)
Theorem X19_three_fields_set_the_limit cfg from word uid n f d :
  from ∈ ADMINS cfg ->
  has_char "_" word = false ->
  load_data f = Done d ->
  set_limit_callback cfg from (word +:+ "_" +:+ str uid +:+ "_" +:+ str n) f
  = match users d !! uid with
    | Some u =>
      (Done (LimitSet uid n),
       Stored (mkData
                 (<[uid := mkUser (username u) (Some n) (keys_used u) (keys u)]>
                    (users d))
                 (pending d)))
    | None => (Done UserNotFound, f)
    end.
Proof.
  intros Hadmin Hword Hload. unfold set_limit_callback.
  rewrite bool_decide_eq_true_2 by done. cbn [negb].
  change (word +:+ "_" +:+ str uid +:+ "_" +:+ str n)
    with (word +:+ String "_" (str uid +:+ String "_" (str n))).
  rewrite split_app_sep by done.
  rewrite split_app_sep by apply str_no_underscore.
  rewrite split_without_sep by apply str_no_underscore.
  rewrite int_str, Hload, uid_of_key_str. now destruct (users d !! uid).
Qed.

Lemma X19_three_fields_set_the_limit_witness :
  set_limit_callback cfg1 1 ("limit" +:+ "_" +:+ str 7 +:+ "_" +:+ str 8)
                     (Stored store_7_one_key)
  = (Done (LimitSet 7 8),
     Stored (mkData
               (<[7 := mkUser (Some "seven") (Some 8) 1
                         [mkKey "AABBCC" "KVN-00112233"
                                1702592000000000 1700000000000010]]>
                  (users store_7_one_key))
               (pending store_7_one_key))).
Proof.
  apply (X19_three_fields_set_the_limit cfg1 1 "limit" 7 8
           (Stored store_7_one_key) store_7_one_key).
  - apply list_elem_of_here.
  - reflexivity.
  - reflexivity.
Defined.

(** ** The button that checks a payment *)

Lemma prefix_app_self old s : String.prefix old (old +:+ s) = true.
Proof.
  induction old as [|a old IH]; simpl; [now destruct s|].
  now destruct (ascii_dec a a).
Qed.

(** Text without the first character of [old] holds no occurrence of it. *)
Lemma remove_all_from_absent c old s :
  has_char c s = false ->
  remove_all_from 0 (String c old) s = s.
Proof.
  induction s as [|x s IH]; [done|].
  intros H. apply orb_false_iff in H as [Hx Hs].
  cbn [remove_all_from String.prefix].
  destruct (ascii_dec c x) as [->|_];
    [now rewrite Ascii.eqb_refl in Hx|].
  cbn [andb]. now rewrite (IH Hs).
Qed.

Lemma remove_all_from_skip old a : forall s,
  remove_all_from (String.length a) old (a +:+ s) = remove_all_from 0 old s.
Proof. induction a as [|x a IH]; intros s; [reflexivity|apply IH]. Qed.

Lemma remove_all_prefixed c old s :
  has_char c s = false ->
  remove_all (String c old) (String c old +:+ s) = s.
Proof.
  intros Hs. unfold remove_all.
  change (String c old +:+ s) with (String c (old +:+ s)).
  cbn [remove_all_from].
  change (String c (old +:+ s)) with (String c old +:+ s).
  rewrite prefix_app_self. cbn [String.eqb negb andb].
  replace (String.length (String c old) - 1)%nat with (String.length old)
    by (simpl; lia).
  rewrite remove_all_from_skip. now apply remove_all_from_absent.
Qed.

Lemma str_has_char c n :
  (forall d, pretty_N_char d ≠ c) -> c ≠ "-"%char ->
  has_char c (str n) = false.
Proof.
  intros Hdigit Hminus. unfold str, pretty, pretty_Z.
  destruct n as [|p|p].
  - change (has_char c "0") with (Ascii.eqb "0" c || false).
    destruct (Ascii.eqb_spec "0" c) as [<-|]; [|done].
    now destruct (Hdigit 0%N).
  - unfold pretty, pretty_positive, pretty, pretty_N.
    case_decide; [done|]. now rewrite pretty_N_go_has_char.
  - rewrite has_char_app.
    unfold pretty, pretty_positive, pretty, pretty_N.
    case_decide; [done|]. rewrite pretty_N_go_has_char by done.
    change (has_char c "-") with (Ascii.eqb "-" c || false).
    change (has_char c "") with false.
    now destruct (Ascii.eqb_spec "-" c) as [<-|].
Qed.

(** X20. The data of the button that checks a payment starts with
    [check_pay_], so that it is routed to [check_payment_manual], and the
    reference that the handler takes out of it is the reference of the
    purchase, for every user id and every time. *)
Theorem X20_check_button_names_the_reference uid now :
  String.prefix "check_pay_" (check_button_data (payment_comment uid now))
    = true
  /\ String.prefix "help_" (check_button_data (payment_comment uid now))
     = false
  /\ routed_to_set_limit (check_button_data (payment_comment uid now)) = false
  /\ remove_all "check_pay_" (check_button_data (payment_comment uid now))
     = payment_comment uid now.
Proof.
  split; [apply prefix_app_self|]. split; [reflexivity|]. split; [reflexivity|].
  unfold check_button_data. apply remove_all_prefixed.
  unfold payment_comment.
  change ("pay_" +:+ str uid +:+ "_" +:+ str (now `quot` 1000000))
    with ("pay_" +:+ (str uid +:+ ("_" +:+ str (now `quot` 1000000)))).
  rewrite !has_char_app.
  rewrite !str_has_char;
    try (intros d; unfold pretty_N_char; repeat case_match; discriminate);
    try discriminate.
  reflexivity.
Qed.

(** ** What overlapping handlers keep *)

Section Overlap.
Context (cfg : Config) (P : Snapshot -> Prop).
Hypothesis handle_keeps :
  forall r f, on_store P f -> on_store P (handle cfg r f).

(** A resumed handler leaves the file as it finds it, or writes what it
    would have written in one piece on the snapshot it had loaded. *)
Lemma get_key_resumed_file o m w data f :
  (get_key_resumed cfg o m w data f).2 = f
  \/ (get_key_resumed cfg o m w data f).2
     = handle cfg (GetKey o m w) (Stored data).
Proof.
  cbn [handle]. rewrite get_key_handler_split. cbn [load_data file_exists
    negb json_load]. unfold get_key_resumed.
  destruct (users (ensure_user _ _ data) !! from_id m); [|now left].
  case_bool_decide; [now left|now right].
Qed.

Lemma finalize_resumed_file o sent c data f :
  (finalize_resumed cfg o sent c data f).2 = f
  \/ (finalize_resumed cfg o sent c data f).2
     = handle cfg (FinalizePayment o sent c) (Stored data).
Proof.
  cbn [handle]. rewrite finalize_payment_split. cbn [load_data file_exists
    negb json_load]. unfold finalize_resumed.
  destruct (pending data !! c) as [info|]; [|now left].
  destruct (users data !! user_id info); [now right|now left].
Qed.

Lemma step_keeps ev st :
  on_store P st.1 /\ tasks_hold P st.2 ->
  on_store P (step cfg ev st).1 /\ tasks_hold P (step cfg ev st).2.
Proof.
  destruct st as [f tasks]. intros [Hf Htasks]. cbn [fst snd] in *.
  destruct ev as [t r|t].
  - destruct r as [m|o m w|m now|from cb|m now now'|o sent c];
      cbn [step fst snd]; try (split; [now apply handle_keeps|done]).
    + destruct (load_data f) as [data|e] eqn:Hload; [|done].
      split; [done|]. apply map_Forall_insert_2; [|done].
      exact (on_store_loaded _ _ _ Hload Hf).
    + destruct (load_data f) as [data|e] eqn:Hload; [|done].
      split; [done|]. apply map_Forall_insert_2; [|done].
      exact (on_store_loaded _ _ _ Hload Hf).
  - cbn [step]. destruct (tasks !! t) as [[o m w data|o sent c data]|] eqn:Ht;
      [| |done]; cbn [fst snd];
      (split; [|now apply map_Forall_delete]);
      pose proof (Htasks _ _ Ht) as Hdata; cbn [loaded_by] in Hdata.
    + destruct (get_key_resumed_file o m w data f) as [-> | ->]; [done|].
      now apply handle_keeps.
    + destruct (finalize_resumed_file o sent c data f) as [-> | ->]; [done|].
      now apply handle_keeps.
Qed.

Lemma run_events_keeps evs : forall st,
  on_store P st.1 /\ tasks_hold P st.2 ->
  on_store P (run_events cfg evs st).1
  /\ tasks_hold P (run_events cfg evs st).2.
Proof.
  induction evs as [|ev evs IH]; intros st Hst; [exact Hst|].
  cbn [run_events foldl]. apply IH. now apply step_keeps.
Qed.

Lemma run_events_keeps_from_idle evs f :
  on_store P f -> on_store P (run_events cfg evs (f, ∅)).1.
Proof.
  intros Hf. apply run_events_keeps. split; [exact Hf|].
  apply map_Forall_empty.
Qed.

End Overlap.

(** X21. What the store keeps, it keeps when handlers overlap: however
    the handlers are started and resumed, from an idle bot and a store in
    which it is so (the empty store for one), every counter [keys_used] is
    the length of its list of keys, no user under the automatic limit
    holds more than 6 keys, and every pending payment waits, is of 0.5 TON
    and is stored under a reference made of its payer's id and a second
    of the clock. *)
Theorem X21_invariants_of_overlapping_handlers cfg evs f :
  (on_store counters_exact f ->
   on_store counters_exact (run_events cfg evs (f, ∅)).1)
  /\ (on_store auto_users_bounded f ->
      on_store auto_users_bounded (run_events cfg evs (f, ∅)).1)
  /\ (on_store pending_well_formed f ->
      on_store pending_well_formed (run_events cfg evs (f, ∅)).1).
Proof.
  split; [|split]; apply run_events_keeps_from_idle.
  - apply handle_counters.
  - apply handle_auto_users_bounded.
  - apply handle_pending_well_formed.
Qed.

Lemma X21_invariants_of_overlapping_handlers_witness :
  let evs := [Arrive 1 (GetKey o_member user7 draw_a); Arrive 2 (Start user8);
              Arrive 3 (BuyKey user8 1700000000000000 1700000000000005);
              Arrive 4 (GetKey o_left user8 draw_b); Resume 1; Resume 4] in
  on_store counters_exact (run_events cfg1 evs (Missing, ∅)).1
  /\ on_store auto_users_bounded (run_events cfg1 evs (Missing, ∅)).1
  /\ on_store pending_well_formed (run_events cfg1 evs (Missing, ∅)).1.
Proof.
  intros evs.
  destruct (X21_invariants_of_overlapping_handlers cfg1 evs Missing)
    as (Hcount & Hbound & Hpend).
  split; [apply Hcount|split; [apply Hbound|apply Hpend]];
    unfold on_store; simpl; apply map_Forall_empty.
Defined.
